(** * Verification of the two utilities of the repository

    - [CleanSRT]: the subtitle renamer of [cleanSRT.py];
    - [GenerateMtgPdf]: the card-sheet generator of [generate_mtg_pdf.py].

    Both scripts are embedded shallowly: Python values become Rocq values,
    the file system and the PDF canvas become explicit state, exceptions
    become a result type. *)

From Stdlib Require Import ZArith Ascii String Floats Uint63.
From stdpp Require Import gmap strings list sorting.

(** ** Exceptions and state

    A computation runs on a state, and either returns a value or raises;
    [Raise] carries the Python exception class. The state reached when the
    exception is raised is kept: what the script did before it failed stays
    done. *)

Inductive exn : Type :=
  | FileNotFoundError
  | NotADirectoryError
  | ValueError
  | OverflowError
  | ZeroDivisionError
  | OSError.

Inductive result (A : Type) : Type :=
  | Ok (a : A)
  | Raise (e : exn).
Arguments Ok {A} a.
Arguments Raise {A} e.

Definition M (Σ A : Type) : Type := Σ → Σ * result A.

#[global] Instance M_ret {Σ} : MRet (M Σ) := λ A a σ, (σ, Ok a).

(** Sequencing stops at the first exception; [x ← m; k] is stdpp's
    notation for it. *)
#[global] Instance M_bind {Σ} : MBind (M Σ) := λ A B k m σ,
  match m σ with
  | (σ', Ok a) => k a σ'
  | (σ', Raise e) => (σ', Raise e)
  end.

Definition raise {Σ A} (e : exn) : M Σ A := λ σ, (σ, Raise e).

Definition get {Σ} : M Σ Σ := λ σ, (σ, Ok σ).

Definition modify {Σ} (f : Σ → Σ) : M Σ unit := λ σ, (f σ, Ok tt).

(** A pure, fallible value used inside a stateful computation. *)
Definition lift {Σ A} (r : result A) : M Σ A := λ σ, (σ, r).

(** ** Python string and list operations

    A string is a sequence of 8-bit characters. A Python [str] is a
    sequence of Unicode code points; the two agree on ASCII strings
    ([isascii]), and there the operations below are Python's. File names
    outside ASCII are not covered: [lower] leaves their characters alone,
    where [str.lower] follows Unicode's case tables. *)

Module Py.

(** [s.isascii()]: every character has a code below 128. *)
Fixpoint isascii (s : string) : bool :=
  match s with
  | EmptyString => true
  | String a s' => (nat_of_ascii a <? 128)%nat && isascii s'
  end.

(** [s.count(c)] for a one-character needle. *)
Fixpoint count (c : ascii) (s : string) : nat :=
  match s with
  | EmptyString => 0
  | String a s' => (if Ascii.eqb a c then 1 else 0) + count c s'
  end.

(** [s.index(c)]: position of the first occurrence; raises [ValueError]
    when there is none. *)
Fixpoint index (c : ascii) (s : string) : result nat :=
  match s with
  | EmptyString => Raise ValueError
  | String a s' =>
      if Ascii.eqb a c then Ok 0
      else match index c s' with
           | Ok i => Ok (S i)
           | Raise e => Raise e
           end
  end.

(** [s[lo:hi]] for non-negative bounds: out-of-range bounds are clamped. *)
Definition slice (s : string) (lo hi : nat) : string :=
  substring lo (hi - lo) s.

(** [s[-n:]]: the last [n] characters, the whole string when it is
    shorter. *)
Definition last_chars (n : nat) (s : string) : string :=
  substring (String.length s - n) n s.

(** [c.lower()] on an ASCII character: a capital letter ['A'..'Z'] moves to
    the small letter 32 codes up, any other character stays. *)
Definition lower_char (c : ascii) : ascii :=
  let n := nat_of_ascii c in
  if (65 <=? n)%nat && (n <=? 90)%nat then ascii_of_nat (n + 32) else c.

(** [s.lower()] on an ASCII string. *)
Fixpoint lower (s : string) : string :=
  match s with
  | EmptyString => EmptyString
  | String a s' => String (lower_char a) (lower s')
  end.

(** [s.rfind(c)]: position of the last occurrence, [-1] when there is
    none. *)
Fixpoint rfind (c : ascii) (s : string) : Z :=
  match s with
  | EmptyString => -1
  | String a s' =>
      let r := rfind c s' in
      if (0 <=? r)%Z then (r + 1)%Z
      else if Ascii.eqb a c then 0%Z else (-1)%Z
  end.

(** A slice bound brought into [0, len]: negative bounds count from the
    end. *)
Definition clamp (len k : Z) : nat :=
  Z.to_nat (if (k <? 0)%Z then Z.max (k + len) 0 else Z.min k len).

(** [l[lo:hi]] on a list. *)
Definition list_slice {A} (l : list A) (lo hi : Z) : list A :=
  let len := Z.of_nat (length l) in
  take (clamp len hi - clamp len lo) (drop (clamp len lo) l).

(** [list(range(start, stop, step))]; a zero step raises. *)
Definition range (start stop step : Z) : result (list Z) :=
  if (step =? 0)%Z then Raise ValueError
  else
    let n := if (0 <? step)%Z
             then ((stop - start + step - 1) / step)%Z
             else ((start - stop - step - 1) / (- step))%Z in
    Ok ((λ k : nat, (start + Z.of_nat k * step)%Z) <$> seq 0 (Z.to_nat n)).

(** [list(enumerate(l))]. *)
Definition enumerate {A} (l : list A) : list (Z * A) :=
  imap (λ j x, (Z.of_nat j, x)) l.

(** [a % b] and [a // b] on integers. *)
Definition mod_ (a b : Z) : result Z :=
  if (b =? 0)%Z then Raise ZeroDivisionError else Ok (a mod b)%Z.

Definition floordiv (a b : Z) : result Z :=
  if (b =? 0)%Z then Raise ZeroDivisionError else Ok (a / b)%Z.

End Py.

(** ** Letter case, spelled out

    What lowercasing means on ASCII text, by the two alphabets rather
    than arithmetic on character codes. [Py.lower_char] is
    compared with it below. *)

Module Letters.

Definition capitals : string := "ABCDEFGHIJKLMNOPQRSTUVWXYZ".
Definition smalls : string := "abcdefghijklmnopqrstuvwxyz".

(** Each capital letter with its small letter. *)
Definition small_of_capital : list (ascii * ascii) :=
  zip (list_ascii_of_string capitals) (list_ascii_of_string smalls).

Definition is_capital (c : ascii) : bool :=
  existsb (λ p, Ascii.eqb (fst p) c) small_of_capital.

(** A character lowercased: the small letter of a capital letter, any
    other character itself. *)
Definition lowercased (c : ascii) : ascii :=
  match List.find (λ p, Ascii.eqb (fst p) c) small_of_capital with
  | Some p => snd p
  | None => c
  end.

Fixpoint lowercased_string (s : string) : string :=
  match s with
  | EmptyString => EmptyString
  | String a s' => String (lowercased a) (lowercased_string s')
  end.

End Letters.

(** ** Path order, spelled out *)

Module Paths.

(** Paths in the order Python compares them: part by part, a path before
    the paths it is a proper prefix of. *)
Inductive le : list string → list string → Prop :=
  | le_nil q : le [] q
  | le_lt a b p q : (a ?= b)%string = Lt → le (a :: p) (b :: q)
  | le_eq a p q : le p q → le (a :: p) (a :: q).

End Paths.

(** ** [cleanSRT.py] *)

Module CleanSRT.

(** A regular file of the working directory: [ident] tells two files
    apart (it follows the file through a rename), [size] is what
    [os.path.getsize] reports. *)
Record file : Type := File { ident : nat; size : N }.

(** The working directory (its regular files, by name) and what the
    script has printed so far. *)
Record state : Type := State {
  disk : gmap string file;
  stdout : list string
}.

Definition set_disk (d : gmap string file) (st : state) : state :=
  State d (stdout st).

(** [os.path.isfile]. *)
Definition isfile (name : string) : M state bool :=
  st ← get; mret (bool_decide (is_Some (disk st !! name))).

(** [os.path.getsize]. *)
Definition getsize (name : string) : M state N :=
  st ← get;
  match disk st !! name with
  | Some f => mret (size f)
  | None => raise FileNotFoundError
  end.

(** [os.remove]. *)
Definition remove (name : string) : M state unit :=
  st ← get;
  match disk st !! name with
  | Some _ => modify (set_disk (delete name (disk st)))
  | None => raise FileNotFoundError
  end.

(** [os.rename(src, dst)]: the file moves to [dst], replacing what was
    there. *)
Definition rename (src dst : string) : M state unit :=
  st ← get;
  match disk st !! src with
  | Some f => modify (set_disk (<[dst := f]> (delete src (disk st))))
  | None => raise FileNotFoundError
  end.

Definition print (line : string) : M state unit :=
  modify (λ st, State (disk st) (stdout st ++ [line])).

(** What [os.listdir()] may return on a directory: its names, each once,
    in an order that is the file system's to choose. *)
Definition listing (d : gmap string file) (names : list string) : Prop :=
  NoDup names ∧ ∀ n, n ∈ names ↔ is_Some (d !! n).

(** [os.listdir()], with one of these orders, that of the map. What a run
    does under any order is stated on [scan], for every [listing]. *)
Definition listdir : M state (list string) :=
  st ← get; mret ((map_to_list (disk st)).*1).

(** The guard of the loop body:
    [filename.count("_")>0 and filename[-4:]==".srt"]. *)
Definition candidate (filename : string) : bool :=
  (0 <? Py.count "_" filename)%nat
  && String.eqb (Py.last_chars 4 filename) ".srt".

(** The target name [f2] of a file name:
    [iu = filename.index("_")+1; f2 = (filename[iu:iu+2]+".srt").lower()]. *)
Definition target (filename : string) : result string :=
  match Py.index "_" filename with
  | Ok i =>
      let iu := i + 1 in
      Ok (Py.lower (Py.slice filename iu (iu + 2) +:+ ".srt"))
  | Raise e => Raise e
  end.

(** One iteration of the [for filename in os.listdir()] loop. *)
Definition body (filename : string) : M state unit :=
  if candidate filename then
    print filename;;
    f2 ← lift (target filename);
    f2_isfile ← isfile f2;
    if negb f2_isfile then
      rename filename f2
    else
      size_f2 ← getsize f2;
      size_filename ← getsize filename;
      if (size_filename <? size_f2)%N (* getsize(f2) > getsize(filename) *)
      then
        remove f2;;
        rename filename f2
      else
        remove filename
  else mret tt.

(** The loop over a listing; an exception aborts the scan. *)
Fixpoint scan (names : list string) : M state unit :=
  match names with
  | [] => mret tt
  | filename :: rest => body filename;; scan rest
  end.

(** The whole script. *)
Definition main : M state unit :=
  names ← listdir; scan names.

End CleanSRT.

(** ** Python numbers

    Python integers are [Z]; Python floats are IEEE 754 binary64 numbers,
    which is what the kernel's primitive [float] is, so the layout
    arithmetic is evaluated with the very roundings the script performs. *)

Module Num.

(** [float(z)] for an integer below 2^63 in magnitude (exact below
    2^53). *)
Definition float_of_int (z : Z) : float :=
  if (z <? 0)%Z
  then PrimFloat.opp (PrimFloat.of_uint63 (Uint63.of_Z (- z)))
  else PrimFloat.of_uint63 (Uint63.of_Z z).

(** [int(x)]: truncation towards zero; infinities and NaN raise. *)
Definition int (x : float) : result Z :=
  match Prim2SF x with
  | S754_zero _ => Ok 0%Z
  | S754_finite s m e =>
      let a := if (0 <=? e)%Z
               then Z.shiftl (Z.pos m) e
               else Z.shiftr (Z.pos m) (- e) in
      Ok (if s then (- a)%Z else a)
  | S754_infinity _ => Raise OverflowError
  | S754_nan => Raise ValueError
  end.

End Num.

(** ** [generate_mtg_pdf.py] *)

Module GenerateMtgPdf.

Import Num.
#[local] Open Scope Z_scope.

(** *** What the script takes from reportlab

    [reportlab.lib.units] and [reportlab.lib.pagesizes]: lengths are in
    points, 72 to the inch. *)
#[local] Set Warnings "-inexact-float".
Definition inch : float := 72.0%float.
Definition cm : float := (inch / 2.54)%float.
Definition mm : float := (cm * 0.1)%float.
Definition A4 : float * float := (210 * mm, 297 * mm)%float.

Inductive color : Type := black | lightgrey.

(** *** Configuration constants *)

Definition CARD_WIDTH_MM : Z := 63.
Definition CARD_HEIGHT_MM : Z := 88.
Definition DPI : Z := 300.
Definition MARGIN_TOP : Z := 5.
Definition MARGIN_BOTTOM : Z := 5.
Definition MARGIN_LEFT : Z := 5.
Definition MARGIN_RIGHT : Z := 5.
Definition CARD_SPACING_X : Z := 1.
Definition CARD_SPACING_Y : Z := 1.
(** The module-level binding of the global; [main] may rebind it. *)
Definition ENABLE_CUT_MARKS : bool := false.
Definition CUT_MARK_COLOR : color := lightgrey.
Definition CUT_MARK_WIDTH : float := 0.5%float.
Definition SUPPORTED_EXTENSIONS : list string := [".png"; ".jpg"; ".jpeg"].

(** *** Paths

    A [pathlib.Path] is its list of components; paths are ordered
    component by component. *)
Definition Path : Type := list string.

Definition name (p : Path) : string := default ""%string (last p).

(** [Path.suffix]: the last dot of the name and what follows, unless
    the dot starts or ends the name. *)
Definition suffix (p : Path) : string :=
  let n := name p in
  let i := Py.rfind "." n in
  if (0 <? i)%Z && (i <? Z.of_nat (String.length n) - 1)%Z
  then substring (Z.to_nat i) (String.length n - Z.to_nat i) n
  else ""%string.

Fixpoint path_leb (p q : Path) : bool :=
  match p, q with
  | [], _ => true
  | _ :: _, [] => false
  | a :: p', b :: q' =>
      match String.compare a b with
      | Lt => true
      | Eq => path_leb p' q'
      | Gt => false
      end
  end.

Fixpoint insert_sorted (p : Path) (l : list Path) : list Path :=
  match l with
  | [] => [p]
  | q :: l' => if path_leb p q then p :: l else q :: insert_sorted p l'
  end.

(** [sorted(paths)]. *)
Definition sorted (l : list Path) : list Path :=
  foldr insert_sorted [] l.

(** *** The outside world

    What the script reads from its environment and cannot decide itself:
    the file system under the source directory, and whether each call
    into the imaging and PDF libraries goes through. *)

(** One entry enumerated by [rglob('*')]. *)
Record entry : Type := Entry { e_path : Path; e_is_file : bool }.

Inductive node : Type :=
  | RegularFile
  | Directory (rglob : list entry).

(** A card image: the source image fitted to the card box. *)
Inductive image : Type := Card (source : Path).

(** How [c.save()] ends. reportlab opens the output file for writing,
    which empties it, and only then builds the document and writes it. *)
Inductive save_outcome : Type :=
  | Saved         (** the document is written in full *)
  | NotOpened     (** the file cannot be opened: it is left as it was *)
  | Interrupted.  (** the file is opened and emptied, then the write fails *)

Record world : Type := World {
  (** what is at a path, if anything *)
  stat : string → option node;
  (** the [try] block of [resize_image_to_card]: whether Pillow opens,
      converts and fits the image without raising *)
  pil_ok : Path → bool;
  (** whether [processed_img.save("temp_card_<k>.png")] goes through *)
  png_save_ok : Z → bool;
  (** whether [c.drawImage("temp_card_<k>.png", ...)] goes through *)
  draw_image_ok : Z → bool;
  (** how [c.save()] ends *)
  canvas_save : save_outcome
}.

(** Whether [c.save()] can write the document. *)
Definition canvas_save_ok (w : world) : bool :=
  match canvas_save w with Saved => true | _ => false end.

(** *** Logging, documents and the process state *)

Inductive level : Type := INFO | WARNING | ERROR.

Inductive message : Type :=
  | MsgFound (n : nat) (source_dir : string)
  | MsgResizeError (image_path : Path)
  | MsgLayout (cols rows : Z)
  | MsgNothingToProcess
  | MsgPage (current_page : Z)
  | MsgInsertError (image_path : Path)
  | MsgGenerated (output_path : string)
  | MsgProcessed (processed_images : Z) (total : nat)
  | MsgStart
  | MsgNoImageFound
  | MsgDone
  | MsgFatal (e : exn).

(** Drawing operators of a page, in the order they were issued. *)
Inductive op : Type :=
  | DrawImage (temp_card : Z) (img : image) (x y width height : float)
  | SetStrokeColor (c : color)
  | SetLineWidth (w : float)
  | Line (x1 y1 x2 y2 : float).

Definition page : Type := list op.

Record canvas : Type := Canvas {
  filename : string;
  title : string;
  author : string;
  subject : string;
  pages : list page;     (** pages closed by [showPage] *)
  current : page         (** the page being drawn *)
}.

(** The process: its log, the documents it has written, and the names
    under which an interrupted save has left an incomplete file. *)
Record proc : Type := Proc {
  log : list (level * message);
  written : gmap string canvas;
  incomplete : gset string
}.

Definition logger (l : level) (m : message) : M proc unit :=
  modify (λ σ, Proc (log σ ++ [(l, m)]) (written σ) (incomplete σ)).

(** *** [find_image_files] *)

Definition find_image_files (w : world) (source_dir : string)
  : M proc (list Path) :=
  match stat w source_dir with
  | None => raise FileNotFoundError        (* not source_path.exists() *)
  | Some RegularFile => raise NotADirectoryError (* not source_path.is_dir() *)
  | Some (Directory rglob) =>
      let image_files :=
        e_path <$>
          filter (λ e, e_is_file e = true
                       ∧ Py.lower (suffix (e_path e)) ∈ SUPPORTED_EXTENSIONS)
                 rglob in
      logger INFO (MsgFound (length image_files) source_dir);;
      mret (sorted image_files)
  end.

(** *** [resize_image_to_card]

    Whatever the [try] block raises is caught, logged, and turned into
    [None]. *)
Definition resize_image_to_card (w : world) (image_path : Path)
  : M proc (option image) :=
  if pil_ok w image_path then mret (Some (Card image_path))
  else logger ERROR (MsgResizeError image_path);; mret None.

(** *** [calculate_layout] *)

Definition page_width : float := (fst A4 / mm)%float.
Definition page_height : float := (snd A4 / mm)%float.

Definition available_width : float :=
  (page_width - float_of_int MARGIN_LEFT - float_of_int MARGIN_RIGHT)%float.
Definition available_height : float :=
  (page_height - float_of_int MARGIN_TOP - float_of_int MARGIN_BOTTOM)%float.

Definition total_width (cols : Z) : Z :=
  cols * CARD_WIDTH_MM + (cols - 1) * CARD_SPACING_X.
Definition total_height (rows : Z) : Z :=
  rows * CARD_HEIGHT_MM + (rows - 1) * CARD_SPACING_Y.

Definition calculate_layout : M proc (Z * Z * float * float) :=
  cols ← lift (int ((available_width + float_of_int CARD_SPACING_X)
                    / float_of_int (CARD_WIDTH_MM + CARD_SPACING_X))%float);
  rows ← lift (int ((available_height + float_of_int CARD_SPACING_Y)
                    / float_of_int (CARD_HEIGHT_MM + CARD_SPACING_Y))%float);
  let cols := Z.min cols 3 in
  let rows := Z.min rows 3 in
  let start_x :=
    (float_of_int MARGIN_LEFT
     + (available_width - float_of_int (total_width cols)) / 2)%float in
  let start_y :=
    (float_of_int MARGIN_BOTTOM
     + (available_height - float_of_int (total_height rows)) / 2)%float in
  logger INFO (MsgLayout cols rows);;
  mret (cols, rows, start_x, start_y).

(** *** The canvas *)

Definition new_canvas (output_path : string) : canvas :=
  Canvas output_path "" "" "" [] [].

Definition setTitle (t : string) (c : canvas) : canvas :=
  Canvas (filename c) t (author c) (subject c) (pages c) (current c).
Definition setAuthor (a : string) (c : canvas) : canvas :=
  Canvas (filename c) (title c) a (subject c) (pages c) (current c).
Definition setSubject (s : string) (c : canvas) : canvas :=
  Canvas (filename c) (title c) (author c) s (pages c) (current c).

Definition emit (o : op) (c : canvas) : canvas :=
  Canvas (filename c) (title c) (author c) (subject c) (pages c)
         (current c ++ [o]).

(** [c.showPage()]: the current page is closed, drawn or not. *)
Definition showPage (c : canvas) : canvas :=
  Canvas (filename c) (title c) (author c) (subject c)
         (pages c ++ [current c]) [].

(** *** [draw_cut_marks] *)

Definition draw_cut_marks (x y : float) (width height : Z) (c : canvas)
  : canvas :=
  let c := emit (SetStrokeColor CUT_MARK_COLOR) c in
  let c := emit (SetLineWidth CUT_MARK_WIDTH) c in
  let x_pt := (x * mm)%float in
  let y_pt := (y * mm)%float in
  let w_pt := (float_of_int width * mm)%float in
  let h_pt := (float_of_int height * mm)%float in
  let mark_length := (3 * mm)%float in
  let corners := [ (x_pt, y_pt);
                   ((x_pt + w_pt)%float, y_pt);
                   (x_pt, (y_pt + h_pt)%float);
                   ((x_pt + w_pt)%float, (y_pt + h_pt)%float) ] in
  foldl (λ c '(corner_x, corner_y),
           let c := emit (Line (corner_x - mark_length) corner_y
                               (corner_x + mark_length) corner_y)%float c in
           emit (Line corner_x (corner_y - mark_length)
                      corner_x (corner_y + mark_length))%float c)
        c corners.

(** *** [generate_pdf] *)

(** The local variables the loops update. *)
Record locals : Type := Locals {
  c : canvas;
  processed_images : Z;
  current_page : Z
}.

Section generate_pdf.

Variable w : world.
(** The value of the global [ENABLE_CUT_MARKS] when the function
    runs. *)
Variable enable_cut_marks : bool.
Variables (cols rows : Z) (start_x start_y : float).

(** Position of slot [j] of a page, in millimetres. *)
Definition slot_x (col : Z) : float :=
  (start_x + float_of_int (col * (CARD_WIDTH_MM + CARD_SPACING_X)))%float.
Definition slot_y (row : Z) : float :=
  (start_y
   + float_of_int ((rows - 1 - row) * (CARD_HEIGHT_MM + CARD_SPACING_Y)))%float.

(** The body of [for j, image_path in enumerate(batch)]. *)
Definition place_card (i : Z) (l : locals) (j : Z) (image_path : Path)
  : M proc locals :=
  col ← lift (Py.mod_ j cols);
  row ← lift (Py.floordiv j cols);
  let x := slot_x col in
  let y := slot_y row in
  processed_img ← resize_image_to_card w image_path;
  match processed_img with
  | None => mret l                                     (* continue *)
  | Some img =>
      let temp_card := i + j in
      if negb (png_save_ok w temp_card) then raise OSError
      else if draw_image_ok w temp_card then
        let c := emit (DrawImage temp_card img (x * mm) (y * mm)
                                 (float_of_int CARD_WIDTH_MM * mm)
                                 (float_of_int CARD_HEIGHT_MM * mm))%float
                      (c l) in
        let c := if enable_cut_marks
                 then draw_cut_marks x y CARD_WIDTH_MM CARD_HEIGHT_MM c
                 else c in
        mret (Locals c (processed_images l + 1) (current_page l))
      else
        logger ERROR (MsgInsertError image_path);; mret l
  end.

Fixpoint place_cards (i : Z) (l : locals) (batch : list (Z * Path))
  : M proc locals :=
  match batch with
  | [] => mret l
  | (j, image_path) :: rest =>
      l ← place_card i l j image_path; place_cards i l rest
  end.

(** The loop [for i in range(0, len(images), cards_per_page)]. *)
Fixpoint draw_pages (images : list Path) (cards_per_page : Z)
    (preview_only : bool) (l : locals) (starts : list Z)
  : M proc locals :=
  match starts with
  | [] => mret l
  | i :: rest =>
      if preview_only && (1 <? current_page l) then mret l    (* break *)
      else
        let batch := Py.list_slice images i (i + cards_per_page) in
        logger INFO (MsgPage (current_page l));;
        l ← place_cards i l (Py.enumerate batch);
        let l := Locals (showPage (c l)) (processed_images l)
                        (current_page l + 1) in
        draw_pages images cards_per_page preview_only l rest
  end.

End generate_pdf.

(** [c.save()]: a page still being drawn is closed, then the document
    is written under the canvas's file name. A save that fails raises;
    when it fails after the file was opened, whatever document was under
    that name is lost and an incomplete file is left in its place. *)
Definition save (w : world) (c : canvas) : M proc unit :=
  let c := match current c with [] => c | _ => showPage c end in
  match canvas_save w with
  | Saved =>
      modify (λ σ, Proc (log σ) (<[filename c := c]> (written σ))
                        (incomplete σ ∖ {[filename c]}))
  | NotOpened => raise OSError
  | Interrupted =>
      modify (λ σ, Proc (log σ) (delete (filename c) (written σ))
                        ({[filename c]} ∪ incomplete σ));;
      raise OSError
  end.

Definition generate_pdf (w : world) (enable_cut_marks : bool)
    (images : list Path) (output_path : string) (preview_only : bool)
  : M proc unit :=
  match images with
  | [] => logger WARNING MsgNothingToProcess
  | _ =>
      '(cols, rows, start_x, start_y) ← calculate_layout;
      let cards_per_page := cols * rows in
      let c := new_canvas output_path in
      let c := setTitle "Cartes Magic The Gathering" c in
      let c := setAuthor "MTG PDF Generator" c in
      let c := setSubject "Impression de cartes MTG" c in
      let l := Locals c 0 1 in
      starts ← lift (Py.range 0 (Z.of_nat (length images)) cards_per_page);
      l ← draw_pages w enable_cut_marks cols rows start_x start_y
                     images cards_per_page preview_only l starts;
      save w (GenerateMtgPdf.c l);;
      logger INFO (MsgGenerated output_path);;
      logger INFO (MsgProcessed (processed_images l) (length images))
  end.

(** *** [main] *)

Record args : Type := Args {
  source_dir : string;
  output : string;
  preview : bool;
  no_cut_marks : bool;
  verbose : bool
}.

(** The parser's defaults. *)
Definition default_args : args :=
  Args "./images" "mtg_cards.pdf" false false false.

(** [global ENABLE_CUT_MARKS; if args.no_cut_marks: ENABLE_CUT_MARKS = False] *)
Definition cut_marks_setting (a : args) : bool :=
  if no_cut_marks a then false else ENABLE_CUT_MARKS.

(** The [try] block of [main]. *)
Definition main_try (w : world) (a : args) : M proc unit :=
  let enable_cut_marks := cut_marks_setting a in
  logger INFO MsgStart;;
  image_files ← find_image_files w (source_dir a);
  match image_files with
  | [] => logger WARNING MsgNoImageFound                    (* return *)
  | _ =>
      generate_pdf w enable_cut_marks image_files (output a) (preview a);;
      logger INFO MsgDone
  end.

(** [main] returns the exit status of the process: [sys.exit(1)] in the
    handler, 0 when it runs to its end. No message is below the INFO
    threshold, so [--verbose] changes nothing that is logged. *)
Definition main (w : world) (a : args) (σ : proc) : proc * Z :=
  match main_try w a σ with
  | (σ', Ok _) => (σ', 0)
  | (σ', Raise e) =>
      (Proc (log σ' ++ [(ERROR, MsgFatal e)]) (written σ') (incomplete σ'),
       1)
  end.

End GenerateMtgPdf.

(** ** What a run is expected to draw

    The loops of [generate_pdf] are compared below with these closed
    descriptions of a page; the properties are then read off them. *)

Module Sheet.

Import Num GenerateMtgPdf.
#[local] Open Scope Z_scope.

(** The cards drawn on a page, in drawing order: the number of the
    temporary file and the source image. *)
Definition cards (pg : page) : list (Z * Path) :=
  omap (λ o, match o with
             | DrawImage k (Card src) _ _ _ _ => Some (k, src)
             | _ => None
             end) pg.

Definition is_image (o : op) : bool :=
  match o with DrawImage _ _ _ _ _ _ => true | _ => false end.

(** A page without its cut marks. *)
Definition images_only (pg : page) : page := List.filter is_image pg.

(** The operators [draw_cut_marks] issues for a card at [(x, y)]. *)
Definition mark_ops (x y : float) (width height : Z) : list op :=
  let x_pt := (x * mm)%float in
  let y_pt := (y * mm)%float in
  let w_pt := (float_of_int width * mm)%float in
  let h_pt := (float_of_int height * mm)%float in
  let mark_length := (3 * mm)%float in
  [ SetStrokeColor CUT_MARK_COLOR; SetLineWidth CUT_MARK_WIDTH;
    Line (x_pt - mark_length) y_pt (x_pt + mark_length) y_pt;
    Line x_pt (y_pt - mark_length) x_pt (y_pt + mark_length);
    Line (x_pt + w_pt - mark_length) y_pt (x_pt + w_pt + mark_length) y_pt;
    Line (x_pt + w_pt) (y_pt - mark_length) (x_pt + w_pt) (y_pt + mark_length);
    Line (x_pt - mark_length) (y_pt + h_pt) (x_pt + mark_length) (y_pt + h_pt);
    Line x_pt (y_pt + h_pt - mark_length) x_pt (y_pt + h_pt + mark_length);
    Line (x_pt + w_pt - mark_length) (y_pt + h_pt)
         (x_pt + w_pt + mark_length) (y_pt + h_pt);
    Line (x_pt + w_pt) (y_pt + h_pt - mark_length)
         (x_pt + w_pt) (y_pt + h_pt + mark_length) ]%float.

(** The same operators, read off the card they surround: its four corners
    are [(x, y)], [(x + w, y)], [(x, y + h)] and [(x + w, y + h)], in
    points. *)
Definition tick_marks (o : op) : list op :=
  match o with
  | DrawImage _ _ x y w h =>
      let mark_length := (3 * mm)%float in
      [ SetStrokeColor CUT_MARK_COLOR; SetLineWidth CUT_MARK_WIDTH;
        Line (x - mark_length) y (x + mark_length) y;
        Line x (y - mark_length) x (y + mark_length);
        Line (x + w - mark_length) y (x + w + mark_length) y;
        Line (x + w) (y - mark_length) (x + w) (y + mark_length);
        Line (x - mark_length) (y + h) (x + mark_length) (y + h);
        Line x (y + h - mark_length) x (y + h + mark_length);
        Line (x + w - mark_length) (y + h) (x + w + mark_length) (y + h);
        Line (x + w) (y + h - mark_length) (x + w) (y + h + mark_length)
      ]%float
  | _ => []
  end.

Definition add_ops (ops : list op) (c : canvas) : canvas :=
  Canvas (filename c) (title c) (author c) (subject c) (pages c)
         (current c ++ ops).

Section page.

Variable w : world.
Variable enable_cut_marks : bool.
Variables (cols rows : Z) (start_x start_y : float).

(** Card [k] makes it onto its page when Pillow handles the image and
    the canvas accepts it. *)
Definition drawn (k : Z) (image_path : Path) : bool :=
  pil_ok w image_path && draw_image_ok w k.

(** What slot [j] of the batch starting at [i] adds to the page. *)
Definition card_ops (i : Z) (jp : Z * Path) : list op :=
  let '(j, image_path) := jp in
  if drawn (i + j) image_path then
    let x := slot_x start_x (j mod cols) in
    let y := slot_y rows start_y (j / cols) in
    DrawImage (i + j) (Card image_path) (x * mm) (y * mm)
              (float_of_int CARD_WIDTH_MM * mm)
              (float_of_int CARD_HEIGHT_MM * mm)%float
    :: (if enable_cut_marks
        then mark_ops x y CARD_WIDTH_MM CARD_HEIGHT_MM else [])
  else [].

(** What it adds to the log. *)
Definition card_log (i : Z) (jp : Z * Path) : list (level * message) :=
  let '(j, image_path) := jp in
  if pil_ok w image_path then
    if draw_image_ok w (i + j) then []
    else [(ERROR, MsgInsertError image_path)]
  else [(ERROR, MsgResizeError image_path)].

Definition card_count (i : Z) (jp : Z * Path) : Z :=
  if drawn (i + jp.1) jp.2 then 1 else 0.

(** The batch of the page that starts at image [i], numbered. *)
Definition batch (images : list Path) (cards_per_page i : Z)
  : list (Z * Path) :=
  Py.enumerate (Py.list_slice images i (i + cards_per_page)).

Definition page_ops (images : list Path) (cards_per_page i : Z) : page :=
  batch images cards_per_page i ≫= card_ops i.

Fixpoint pages_log (images : list Path) (cards_per_page : Z)
    (current_page : Z) (starts : list Z) : list (level * message) :=
  match starts with
  | [] => []
  | i :: rest =>
      (INFO, MsgPage current_page)
      :: (batch images cards_per_page i ≫= card_log i)
      ++ pages_log images cards_per_page (current_page + 1) rest
  end.

Definition pages_count (images : list Path) (cards_per_page : Z)
    (starts : list Z) : Z :=
  foldr Z.add 0
    ((λ i, foldr Z.add 0 (card_count i <$> batch images cards_per_page i))
       <$> starts).

End page.

(** Where the pages start in the image list: [range(0, n, cards_per_page)]
    for a positive step. *)
Definition page_starts (n : nat) (cards_per_page : Z) : list Z :=
  (λ k : nat, Z.of_nat k * cards_per_page)
    <$> seq 0 (Z.to_nat ((Z.of_nat n + cards_per_page - 1) / cards_per_page)).

(** The page starts the loop visits: all of them, or the first one in
    preview mode. *)
Definition visited (preview_only : bool) (starts : list Z) : list Z :=
  if preview_only then take 1 starts else starts.

End Sheet.

(** ** Concrete runs *)

Module Examples.

Import GenerateMtgPdf.

Definition ten_images : list Path :=
  (λ n, ["images"; n]%string)
    <$> [ "card_01.png"; "card_02.png"; "card_03.png"; "card_04.png";
          "card_05.png"; "card_06.png"; "card_07.png"; "card_08.png";
          "card_09.png"; "card_10.png" ]%string.

(** Ten readable images under [./images], and every write goes through. *)
Definition friendly : world :=
  World (λ source_dir,
           if String.eqb source_dir "./images"
           then Some (Directory ((λ p, Entry p true) <$> ten_images))
           else None)
        (λ _, true) (λ _, true) (λ _, true) Saved.

(** The same directory, but Pillow cannot read [card_02.png]. *)
Definition one_unreadable : world :=
  World (stat friendly)
        (λ image_path,
           negb (bool_decide (image_path = ["images"; "card_02.png"]%string)))
        (λ _, true) (λ _, true) Saved.

(** The same directory, but Pillow cannot read any image. *)
Definition all_unreadable : world :=
  World (stat friendly) (λ _, false) (λ _, true) (λ _, true) Saved.

(** A process that has logged and written nothing yet. *)
Definition fresh : proc := Proc [] ∅ ∅.

End Examples.

(** ** More concrete runs and vocabulary *)

Module Cases.

Import GenerateMtgPdf.

(** A folder of subtitles: two English tracks, one French, and a file the
    script has no business with. *)
Definition subs : CleanSRT.state :=
  CleanSRT.State
    (<["2_English.srt"%string := CleanSRT.File 1 900]>
       (<["3_English.srt"%string := CleanSRT.File 2 1200]>
          (<["4_French.srt"%string := CleanSRT.File 3 700]>
             {["notes.txt"%string := CleanSRT.File 4 10]})))
    [].

(** A source directory as [rglob] may list it: unsorted, with a
    sub-directory, an upper-case extension, a text file and a dot file. *)
Definition mixed_dir : list entry :=
  [ Entry ["images"; "sets"]%string false;
    Entry ["images"; "sets"; "b.PNG"]%string true;
    Entry ["images"; "readme.txt"]%string true;
    Entry ["images"; "a.jpeg"]%string true;
    Entry ["images"; ".png"]%string true;
    Entry ["images"; "folder.jpg"]%string false;
    Entry ["images"; "Z.jpg"]%string true ].

Definition mixed : world :=
  World (λ source_dir,
           if String.eqb source_dir "./images"
           then Some (Directory mixed_dir) else None)
        (λ _, true) (λ _, true) (λ _, true) Saved.

(** A directory with nothing to print. *)
Definition no_images : world :=
  World (λ source_dir,
           if String.eqb source_dir "./images"
           then Some (Directory [Entry ["images"; "readme.txt"]%string true])
           else None)
        (λ _, true) (λ _, true) (λ _, true) Saved.

(** Ten readable images, but the temporary file of the fourth one cannot
    be written. *)
Definition disk_full : world :=
  World (stat Examples.friendly) (λ _, true) (λ k, negb (k =? 3)%Z)
        (λ _, true) Saved.



(** Ten readable images, but the canvas refuses the fourth one. *)
Definition one_rejected : world :=
  World (stat Examples.friendly) (λ _, true) (λ _, true)
        (λ k, negb (k =? 3)%Z) Saved.

End Cases.

(** ** How the loops of [generate_pdf] can fail *)

Module Failure.

(** The only exceptions the loops can raise: the temporary image cannot
    be written, or the grid has no column to divide by. *)
Definition loop_exn (cols : Z) (ex : exn) : Prop :=
  ex = OSError ∨ (cols = 0%Z ∧ ex = ZeroDivisionError).

End Failure.

(** * Properties of [cleanSRT.py] *)

Module CleanSRTFacts.

Import CleanSRT.

(** ** Strings *)

#[local] Arguments String.append !_ _ / : simpl nomatch.

Lemma count_app c a b :
  Py.count c (a +:+ b) = Py.count c a + Py.count c b.
Proof.
  induction a as [|x a IH]; simpl; [done|]. rewrite IH. lia.
Qed.

Lemma length_app a b :
  String.length (a +:+ b) = String.length a + String.length b.
Proof. induction a as [|x a IH]; simpl; [done|]. by rewrite IH. Qed.

(** A string with an occurrence of [c] splits at the first one, which is
    where [index] finds it. *)
Lemma split_at_first c s :
  0 < Py.count c s →
  ∃ pre post,
    s = pre +:+ String c post
    ∧ Py.count c pre = 0
    ∧ Py.index c s = Ok (String.length pre).
Proof.
  induction s as [|a s IH]; simpl; [lia|].
  destruct (Ascii.eqb_spec a c) as [->|Hne]; intros Hc.
  - by exists ""%string, s.
  - destruct IH as (pre & post & -> & Hpre & Hidx); [lia|].
    exists (String a pre), post. simpl. rewrite Hpre, Hidx.
    destruct (Ascii.eqb_spec a c); [done|]. done.
Qed.

Lemma substring_whole n s :
  String.length s ≤ n → substring 0 n s = s.
Proof.
  revert n. induction s as [|a s IH]; intros [|n] Hn; simpl in *;
    try done; try lia.
  rewrite IH; [done|lia].
Qed.

Lemma substring_split k s :
  k ≤ String.length s →
  s = substring 0 k s +:+ substring k (String.length s - k) s.
Proof.
  revert k. induction s as [|a s IH]; intros [|k] Hk; simpl in *;
    try done; try lia.
  - by rewrite substring_whole.
  - simpl. f_equal. apply IH. lia.
Qed.

Lemma substring_skip a n m b :
  substring (String.length a + n) m (a +:+ b) = substring n m b.
Proof. induction a as [|x a IH]; simpl; done. Qed.

(** A string whose last [n] characters are [t] ends in [t]. *)
Lemma last_chars_suffix n s t :
  Py.last_chars n s = t → String.length t = n → ∃ s0, s = s0 +:+ t.
Proof.
  unfold Py.last_chars. intros Ht Hlen.
  destruct (decide (n ≤ String.length s)) as [Hle|Hgt].
  - exists (substring 0 (String.length s - n) s).
    rewrite <- Ht.
    rewrite (substring_split (String.length s - n) s) at 1; [|lia].
    do 2 f_equal. lia.
  - replace (String.length s - n) with 0 in Ht by lia.
    rewrite substring_whole in Ht; [|lia]. subst t. lia.
Qed.

(** Where two splittings of one string meet: if the part after an
    occurrence of [c] is cut off by a suffix free of [c], it ends in that
    suffix. *)
Lemma suffix_after c a b s0 t :
  a +:+ String c b = s0 +:+ t → Py.count c t = 0 → ∃ b', b = b' +:+ t.
Proof.
  revert a. induction s0 as [|x s0 IH]; intros a Heq Ht; simpl in Heq.
  - apply (f_equal (Py.count c)) in Heq.
    rewrite count_app in Heq. simpl in Heq.
    rewrite Ascii.eqb_refl in Heq. lia.
  - destruct a as [|y a]; simpl in Heq; injection Heq as -> Heq.
    + by exists s0.
    + by apply (IH a).
Qed.

(** The shape of a candidate file name: the first underscore is followed
    by at least two characters, and the name ends in [.srt]. *)
Lemma candidate_shape filename :
  candidate filename = true →
  ∃ pre c1 c2 rest,
    filename = pre +:+ String "_" (String c1 (String c2 rest))
    ∧ Py.count "_" pre = 0
    ∧ Py.index "_" filename = Ok (String.length pre)
    ∧ ∃ b', String c1 (String c2 rest) = b' +:+ ".srt".
Proof.
  unfold candidate. intros [Hc Hs]%andb_true_iff.
  apply Nat.ltb_lt in Hc. apply String.eqb_eq in Hs.
  destruct (split_at_first _ _ Hc) as (pre & post & Hfile & Hpre & Hidx).
  destruct (last_chars_suffix _ _ _ Hs eq_refl) as [s0 Hs0].
  destruct (suffix_after "_" pre post s0 ".srt") as [b' Hb']; [congruence|done|].
  assert (∃ c1 c2 rest, post = String c1 (String c2 rest)) as (c1 & c2 & rest & ->).
  { subst post. destruct b' as [|x [|y b']]; simpl; eauto. }
  exists pre, c1, c2, rest. eauto.
Qed.

Lemma target_shape pre c1 c2 rest :
  Py.index "_" (pre +:+ String "_" (String c1 (String c2 rest)))
    = Ok (String.length pre) →
  target (pre +:+ String "_" (String c1 (String c2 rest)))
    = Ok (String (Py.lower_char c1) (String (Py.lower_char c2) ".srt")).
Proof.
  intros Hidx. unfold target. rewrite Hidx. unfold Py.slice.
  replace (String.length pre + 1 + 2 - (String.length pre + 1)) with 2 by lia.
  rewrite substring_skip. simpl. by destruct rest.
Qed.

(** The target of a candidate is never the candidate's own name. *)
Lemma target_ne filename f2 :
  candidate filename = true → target filename = Ok f2 → f2 ≠ filename.
Proof.
  intros Hc Ht.
  destruct (candidate_shape _ Hc)
    as (pre & c1 & c2 & rest & -> & Hpre & Hidx & _).
  rewrite (target_shape _ _ _ _ Hidx) in Ht. injection Ht as <-.
  intros Heq. destruct pre as [|p [|p' pre]]; simpl in Heq.
  - injection Heq as H1 H2 H3 _. subst c2 c1. by vm_compute in H1.
  - injection Heq as _ H2 _ H4 _. subst c2. by vm_compute in H2.
  - injection Heq as _ _ Heq. apply (f_equal (Py.count "_")) in Heq.
    rewrite count_app in Heq. simpl in Heq. lia.
Qed.

(** ** The loop body, branch by branch *)

Ltac run_body :=
  unfold body, print, isfile, getsize, remove, rename, modify, get, lift,
    raise, set_disk, mbind, M_bind, mret, M_ret; simpl.

(** The target name is free: the file is renamed. *)
Lemma body_free st filename f2 f :
  candidate filename = true → target filename = Ok f2 →
  disk st !! filename = Some f → disk st !! f2 = None →
  body filename st
  = (State (<[f2 := f]> (delete filename (disk st)))
           (stdout st ++ [filename]), Ok ()).
Proof.
  intros Hc Ht Hf Hf2. run_body. rewrite Hc, Ht; simpl.
  rewrite Hf2; simpl. by rewrite Hf.
Qed.

(** The target name is taken by a strictly larger file: that file is
    removed and the scanned file takes the name. *)
Lemma body_replace st filename f2 new old :
  candidate filename = true → target filename = Ok f2 →
  disk st !! filename = Some new → disk st !! f2 = Some old →
  (size new < size old)%N →
  body filename st
  = (State (<[f2 := new]> (delete filename (delete f2 (disk st))))
           (stdout st ++ [filename]), Ok ()).
Proof.
  intros Hc Ht Hnew Hold Hlt. run_body. rewrite Hc, Ht; simpl.
  apply N.ltb_lt in Hlt.
  rewrite Hold, bool_decide_eq_true_2 by eauto; simpl.
  rewrite Hold; simpl. rewrite Hnew; simpl. rewrite Hlt; simpl.
  rewrite Hold; simpl.
  rewrite lookup_delete_ne by (by apply target_ne).
  by rewrite Hnew.
Qed.

(** The target name is taken by a file that is not larger: the scanned
    file is removed. *)
Lemma body_discard st filename f2 new old :
  candidate filename = true → target filename = Ok f2 →
  disk st !! filename = Some new → disk st !! f2 = Some old →
  (size old ≤ size new)%N →
  body filename st
  = (State (delete filename (disk st)) (stdout st ++ [filename]), Ok ()).
Proof.
  intros Hc Ht Hnew Hold Hle. run_body. rewrite Hc, Ht; simpl.
  apply N.ltb_ge in Hle.
  rewrite Hold, bool_decide_eq_true_2 by eauto; simpl.
  rewrite Hold; simpl. rewrite Hnew; simpl. rewrite Hle; simpl.
  by rewrite Hnew.
Qed.

(** ** Code extraction *)

(** [Py.lower_char] is lowercasing as the table of letters has it. *)
Lemma lower_char_lowercased c : Py.lower_char c = Letters.lowercased c.
Proof. by destruct c as [[] [] [] [] [] [] [] []]. Qed.

Lemma lower_lowercased s : Py.lower s = Letters.lowercased_string s.
Proof.
  induction s as [|a s IH]; simpl; [done|].
  by rewrite lower_char_lowercased, IH.
Qed.

Lemma lowercased_ascii c :
  (nat_of_ascii c <? 128) = true →
  (nat_of_ascii (Letters.lowercased c) <? 128) = true.
Proof. by destruct c as [[] [] [] [] [] [] [] []]. Qed.

Lemma isascii_app a b :
  Py.isascii (a +:+ b) = Py.isascii a && Py.isascii b.
Proof.
  induction a as [|x a IH]; simpl; [done|]. by rewrite IH, andb_assoc.
Qed.




(** ** Conflict resolution *)

(** C1, as the code has it. When the target name of a scanned file is
    taken, the file left under the target name is the one with the
    strictly smaller size: a strictly larger target is removed and the
    scanned file renamed; otherwise (also on a tie) the target stays and
    the scanned file is removed. Either way the scanned name is gone and
    no other file is touched. *)
Theorem conflict_keeps_smaller (st : state) (filename f2 : string)
    (new old : file) :
  candidate filename = true →
  target filename = Ok f2 →
  disk st !! filename = Some new →
  disk st !! f2 = Some old →
  ∃ st', body filename st = (st', Ok ())
         ∧ disk st' !! f2
           = Some (if (size new <? size old)%N then new else old)
         ∧ disk st' !! filename = None
         ∧ ∀ other, other ≠ filename → other ≠ f2 →
                    disk st' !! other = disk st !! other.
Proof.
  intros Hc Ht Hnew Hold.
  pose proof (target_ne _ _ Hc Ht) as Hne.
  destruct (N.ltb_spec (size new) (size old)) as [Hlt|Hge]; eexists.
  - split; [by apply (body_replace st filename f2 new old)|]. simpl.
    split; [by rewrite lookup_insert_eq|].
    split.
    + rewrite lookup_insert_ne by done. by rewrite lookup_delete_eq.
    + intros other Ho1 Ho2.
      rewrite lookup_insert_ne by done.
      by rewrite !lookup_delete_ne by done.
  - split; [by apply (body_discard st filename f2 new old)|]. simpl.
    split; [by rewrite lookup_delete_ne|].
    split; [by rewrite lookup_delete_eq|].
    intros other Ho1 Ho2. by rewrite lookup_delete_ne.
Qed.

Lemma conflict_keeps_smaller_witness :
  let st := State (<["movie_en_full.srt"%string := File 1 500]>
                     {["en.srt"%string := File 2 300]}) [] in
  ∃ st', body "movie_en_full.srt" st = (st', Ok ())
         ∧ disk st' !! "en.srt"%string
           = Some (if (size (File 1 500) <? size (File 2 300))%N
                   then File 1 500 else File 2 300)
         ∧ disk st' !! "movie_en_full.srt"%string = None
         ∧ ∀ other, other ≠ "movie_en_full.srt"%string →
                    other ≠ "en.srt"%string →
                    disk st' !! other = disk st !! other.
Proof.
  apply (conflict_keeps_smaller _ "movie_en_full.srt" "en.srt"
           (File 1 500) (File 2 300)); reflexivity.
Defined.

(** Keeping the larger file is not what the script does. On the
    specification's own example, a scanned file of 500 bytes meets a
    target of 300 bytes, and the script leaves the 300-byte file under the
    target name and removes the 500-byte one. *)
Lemma larger_file_is_not_kept :
  ∃ st',
    main (State (<["movie_en_full.srt"%string := File 1 500]>
                   {["en.srt"%string := File 2 300]}) [])
    = (st', Ok ())
    ∧ disk st' !! "en.srt"%string = Some (File 2 300)
    ∧ disk st' !! "movie_en_full.srt"%string = None
    ∧ size <$> disk st' !! "en.srt"%string ≠ Some 500%N.
Proof.
  eexists. split; [vm_compute; reflexivity|].
  repeat split; try (vm_compute; reflexivity). by vm_compute.
Qed.

End CleanSRTFacts.


(** * Properties of [generate_mtg_pdf.py] *)

Module GenerateMtgPdfFacts.

Import Num GenerateMtgPdf Sheet.
#[local] Open Scope Z_scope.

(** ** The layout *)

(** The value [calculate_layout] returns, and its one log line. *)
Lemma calculate_layout_run (σ : proc) :
  calculate_layout σ
  = (Proc (log σ ++ [(INFO, MsgLayout 3 3)]) (written σ) (incomplete σ),
     Ok (3, 3, 9.5%float, 15.5%float)).
Proof. reflexivity. Qed.

(** C4. With the A4 page, 5 mm margins, 63 mm by 88 mm cards and 1 mm
    between cards, [calculate_layout] returns at most 3 columns and 3
    rows, and the grid (191 mm by 266 mm) is no wider and no taller than
    the area the margins leave (200 mm by 287 mm). *)
Theorem layout_fits (σ : proc) :
  ∃ cols rows start_x start_y,
    (calculate_layout σ).2 = Ok (cols, rows, start_x, start_y)
    ∧ cols ≤ 3 ∧ rows ≤ 3
    ∧ (float_of_int (total_width cols) <=? available_width)%float = true
    ∧ (float_of_int (total_height rows) <=? available_height)%float = true
    ∧ total_width cols = 191 ∧ available_width = 200%float
    ∧ total_height rows = 266 ∧ available_height = 287%float.
Proof.
  exists 3, 3, 9.5%float, 15.5%float.
  split; [by rewrite calculate_layout_run|].
  repeat split; try lia; reflexivity.
Qed.

(** C7. The grid is centred: the offset on the left of the grid equals
    what is left over on its right, and the offset below it equals what is
    left over above it. With these dimensions no rounding occurs: the
    offsets are 4.5 mm and 10.5 mm exactly, measured inside the margins
    or against the page edges. *)
Theorem layout_centred (σ : proc) :
  ∃ cols rows start_x start_y,
    (calculate_layout σ).2 = Ok (cols, rows, start_x, start_y)
    ∧ let left := (start_x - float_of_int MARGIN_LEFT)%float in
      let right :=
        (available_width - float_of_int (total_width cols) - left)%float in
      let bottom := (start_y - float_of_int MARGIN_BOTTOM)%float in
      let top :=
        (available_height - float_of_int (total_height rows) - bottom)%float in
      left = right ∧ bottom = top
      ∧ left = 4.5%float ∧ bottom = 10.5%float
      ∧ (page_width - float_of_int MARGIN_RIGHT
         - (start_x + float_of_int (total_width cols)))%float = left
      ∧ (page_height - float_of_int MARGIN_TOP
         - (start_y + float_of_int (total_height rows)))%float = bottom.
Proof.
  exists 3, 3, 9.5%float, 15.5%float.
  split; [by rewrite calculate_layout_run|].
  cbv zeta. repeat split; reflexivity.
Qed.

(** ** Directory-level failures *)

(** What [main] does when the source is not a directory it can read. *)
Lemma main_no_directory (w : world) (a : args) (σ : proc) (e : exn) :
  (stat w (source_dir a) = None ∧ e = FileNotFoundError)
  ∨ (stat w (source_dir a) = Some RegularFile ∧ e = NotADirectoryError) →
  main w a σ
  = (Proc (log σ ++ [(INFO, MsgStart); (ERROR, MsgFatal e)]) (written σ)
          (incomplete σ),
     1).
Proof.
  intros [[Hstat ->]|[Hstat ->]];
    unfold main, main_try, find_image_files, logger, modify, raise,
      mbind, M_bind; simpl; rewrite Hstat; simpl;
    by rewrite <- app_assoc.
Qed.

(** C8. A source directory that does not exist makes [find_image_files]
    raise [FileNotFoundError], a source path that is not a directory makes
    it raise [NotADirectoryError]; either way [main] logs the fatal error
    and exits with status 1, having logged nothing else but its start,
    and the documents written are those there were before. *)
Theorem source_errors_are_fatal (w : world) (a : args) (σ : proc) (e : exn) :
  (stat w (source_dir a) = None ∧ e = FileNotFoundError)
  ∨ (stat w (source_dir a) = Some RegularFile ∧ e = NotADirectoryError) →
  find_image_files w (source_dir a) σ = (σ, Raise e)
  ∧ main w a σ
    = (Proc (log σ ++ [(INFO, MsgStart); (ERROR, MsgFatal e)]) (written σ)
          (incomplete σ),
     1).
Proof.
  intros Hsource. split; [|by apply main_no_directory].
  unfold find_image_files, raise.
  by destruct Hsource as [[-> ->]|[-> ->]].
Qed.

Lemma source_errors_are_fatal_witness :
  let missing :=
    World (λ _, None) (λ _, true) (λ _, true) (λ _, true) Saved in
  let file := World (λ _, Some RegularFile) (λ _, true) (λ _, true)
                    (λ _, true) Saved in
  let σ := Proc [] ∅ ∅ in
  (find_image_files missing (source_dir default_args) σ
   = (σ, Raise FileNotFoundError)
   ∧ main missing default_args σ
     = (Proc (log σ ++ [(INFO, MsgStart); (ERROR, MsgFatal FileNotFoundError)])
             (written σ) (incomplete σ), 1))
  ∧ (find_image_files file (source_dir default_args) σ
     = (σ, Raise NotADirectoryError)
     ∧ main file default_args σ
       = (Proc (log σ ++ [(INFO, MsgStart);
                          (ERROR, MsgFatal NotADirectoryError)])
               (written σ) (incomplete σ), 1)).
Proof.
  split.
  - apply (source_errors_are_fatal
             (World (λ _, None) (λ _, true) (λ _, true) (λ _, true) Saved)
             default_args (Proc [] ∅ ∅) FileNotFoundError).
    left. split; reflexivity.
  - apply (source_errors_are_fatal
             (World (λ _, Some RegularFile) (λ _, true) (λ _, true)
                    (λ _, true) Saved)
             default_args (Proc [] ∅ ∅) NotADirectoryError).
    right. split; reflexivity.
Defined.

(** ** The loops of [generate_pdf] *)

Lemma add_ops_nil c : add_ops [] c = c.
Proof. destruct c. unfold add_ops; simpl. by rewrite app_nil_r. Qed.

Lemma add_ops_app ops1 ops2 c :
  add_ops ops2 (add_ops ops1 c) = add_ops (ops1 ++ ops2) c.
Proof. unfold add_ops; simpl. by rewrite app_assoc. Qed.

Lemma emit_add_ops o c : emit o c = add_ops [o] c.
Proof. reflexivity. Qed.

Lemma draw_cut_marks_ops x y width height c :
  draw_cut_marks x y width height c = add_ops (mark_ops x y width height) c.
Proof.
  unfold draw_cut_marks. simpl. rewrite !emit_add_ops, !add_ops_app.
  reflexivity.
Qed.

Section loops.

Variable w : world.
Variable enable_cut_marks : bool.
Variables (cols rows : Z) (start_x start_y : float).

Hypothesis cols_nonzero : cols ≠ 0.
(** Writing the temporary image never fails. *)
Hypothesis png_saved : ∀ k, png_save_ok w k = true.

#[local] Abbreviation place_card := (place_card w enable_cut_marks cols rows start_x start_y).
#[local] Abbreviation place_cards := (place_cards w enable_cut_marks cols rows start_x start_y).
#[local] Abbreviation draw_pages := (draw_pages w enable_cut_marks cols rows start_x start_y).
#[local] Abbreviation card_ops := (card_ops w enable_cut_marks cols rows start_x start_y).
#[local] Abbreviation page_ops := (page_ops w enable_cut_marks cols rows start_x start_y).

(** One card: the page, the log and the counter after the loop body. *)
Lemma place_card_run i l j image_path σ :
  place_card i l j image_path σ
  = (Proc (log σ ++ card_log w i (j, image_path)) (written σ) (incomplete σ),
     Ok (Locals (add_ops (card_ops i (j, image_path)) (c l))
                (processed_images l + card_count w i (j, image_path))
                (current_page l))).
Proof.
  unfold GenerateMtgPdf.place_card, Py.mod_, Py.floordiv, lift,
    resize_image_to_card, logger, modify, raise, mbind, M_bind, mret, M_ret.
  apply Z.eqb_neq in cols_nonzero. rewrite cols_nonzero.
  unfold card_log, Sheet.card_ops, card_count, drawn. simpl.
  destruct (pil_ok w image_path); simpl.
  - rewrite png_saved. simpl.
    destruct (draw_image_ok w (i + j)); simpl.
    + rewrite app_nil_r.
      destruct σ, l; simpl. do 3 f_equal.
      destruct enable_cut_marks.
      * by rewrite draw_cut_marks_ops, emit_add_ops, add_ops_app.
      * by rewrite emit_add_ops.
    + rewrite add_ops_nil, Z.add_0_r. by destruct l.
  - rewrite add_ops_nil, Z.add_0_r. by destruct l.
Qed.

(** A batch: the pages, logs and counters add up card by card. *)
Lemma place_cards_run i (jps : list (Z * Path)) l σ :
  place_cards i l jps σ
  = (Proc (log σ ++ (jps ≫= card_log w i)) (written σ) (incomplete σ),
     Ok (Locals (add_ops (jps ≫= card_ops i) (c l))
                (processed_images l + foldr Z.add 0 (card_count w i <$> jps))
                (current_page l))).
Proof.
  revert l σ. induction jps as [|[j image_path] jps IH]; intros l σ.
  - simpl. rewrite app_nil_r, add_ops_nil, Z.add_0_r. by destruct σ, l.
  - cbn [GenerateMtgPdf.place_cards]. unfold mbind at 1, M_bind at 1.
    rewrite place_card_run, IH. simpl.
    rewrite add_ops_app, <- app_assoc. do 3 f_equal.
    symmetry. apply Z.add_assoc.
Qed.

(** The pages loop outside preview mode, from an empty current page. *)
Lemma draw_pages_run images cards_per_page starts l σ :
  current (c l) = [] →
  draw_pages images cards_per_page false l starts σ
  = (Proc (log σ ++ pages_log w images cards_per_page (current_page l) starts)
          (written σ) (incomplete σ),
     Ok (Locals (Canvas (filename (c l)) (title (c l)) (author (c l))
                        (subject (c l))
                        (pages (c l)
                         ++ (page_ops images cards_per_page <$> starts))
                        [])
                (processed_images l
                 + pages_count w images cards_per_page starts)
                (current_page l + Z.of_nat (length starts)))).
Proof.
  revert l σ. induction starts as [|i starts IH]; intros l σ Hcur.
  - simpl. rewrite !app_nil_r, !Z.add_0_r.
    destruct σ, l as [[] ? ?]; simpl in *. by subst.
  - cbn [GenerateMtgPdf.draw_pages andb].
    unfold mbind at 1, M_bind at 1, logger at 1, modify at 1.
    unfold mbind at 1, M_bind at 1. cbv beta. rewrite place_cards_run.
    rewrite IH by done. simpl.
    unfold add_ops. simpl. rewrite Hcur. simpl.
    rewrite <- !app_assoc. simpl.
    unfold pages_count, Sheet.page_ops, batch. simpl.
    do 3 f_equal; [symmetry; apply Z.add_assoc | lia].
Qed.

(** Preview mode stops after the first page. *)
Lemma draw_pages_preview images cards_per_page starts l σ :
  current_page l = 1 →
  draw_pages images cards_per_page true l starts σ
  = draw_pages images cards_per_page false l (take 1 starts) σ.
Proof.
  intros Hpage. destruct starts as [|i starts]; [done|].
  cbn [GenerateMtgPdf.draw_pages take]. rewrite Hpage.
  change (1 <? 1) with false. cbn [andb].
  unfold mbind at 1 3, M_bind at 1 3, logger at 1 2, modify at 1 2.
  unfold mbind at 1 2, M_bind at 1 2. cbv beta. rewrite !place_cards_run.
  simpl. rewrite Hpage. by destruct starts.
Qed.

End loops.

Lemma range_run n cards_per_page :
  0 < cards_per_page →
  Py.range 0 (Z.of_nat n) cards_per_page = Ok (page_starts n cards_per_page).
Proof.
  intros Hpos. unfold Py.range, page_starts.
  destruct (Z.eqb_spec cards_per_page 0) as [|_]; [lia|].
  destruct (Z.ltb_spec 0 cards_per_page) as [_|]; [|lia].
  rewrite Z.sub_0_r. by f_equal.
Qed.

Lemma canvas_save_ok_Saved w : canvas_save_ok w = true → canvas_save w = Saved.
Proof. unfold canvas_save_ok. by destruct (canvas_save w). Qed.

(** The whole of [generate_pdf] on a non-empty list, when the temporary
    images and the document can be written. *)
Lemma generate_pdf_run w enable_cut_marks images output_path preview_only σ :
  images ≠ [] →
  (∀ k, png_save_ok w k = true) →
  canvas_save_ok w = true →
  let starts := visited preview_only (page_starts (length images) 9) in
  generate_pdf w enable_cut_marks images output_path preview_only σ
  = (Proc (log σ
           ++ [(INFO, MsgLayout 3 3)]
           ++ pages_log w images 9 1 starts
           ++ [(INFO, MsgGenerated output_path);
               (INFO, MsgProcessed (pages_count w images 9 starts)
                                   (length images))])
          (<[output_path :=
               Canvas output_path "Cartes Magic The Gathering"
                      "MTG PDF Generator" "Impression de cartes MTG"
                      (page_ops w enable_cut_marks 3 3 9.5%float 15.5%float
                                images 9 <$> starts)
                      []]> (written σ))
          (incomplete σ ∖ {[output_path]}),
     Ok ()).
Proof.
  intros Hne Hpng Hsave starts.
  destruct images as [|image_path images]; [done|].
  unfold generate_pdf.
  unfold mbind at 1, M_bind at 1. rewrite calculate_layout_run. cbv beta iota.
  change (3 * 3) with 9.
  unfold mbind at 1, M_bind at 1, lift at 1. rewrite range_run by lia.
  unfold mbind at 1, M_bind at 1.
  assert (∀ l σ0,
            current_page l = 1 →
            draw_pages w enable_cut_marks 3 3 9.5%float 15.5%float
              (image_path :: images) 9 preview_only l
              (page_starts (length (image_path :: images)) 9) σ0
            = draw_pages w enable_cut_marks 3 3 9.5%float 15.5%float
                (image_path :: images) 9 false l starts σ0) as Hvisit.
  { intros l σ0 Hl. subst starts. destruct preview_only; [|done].
    by apply draw_pages_preview. }
  rewrite Hvisit by done.
  rewrite draw_pages_run by done.
  unfold save, logger, modify, mbind, M_bind. cbn -[page_starts visited app].
  rewrite (canvas_save_ok_Saved _ Hsave). cbn -[page_starts visited app].
  by rewrite <- !app_assoc.
Qed.

(** ** Batches *)

(** A slice with non-negative bounds is a [take] of a [drop]. *)
Lemma list_slice_take_drop {A} (l : list A) (a n : nat) :
  Py.list_slice l (Z.of_nat a) (Z.of_nat a + Z.of_nat n) = take n (drop a l).
Proof.
  unfold Py.list_slice, Py.clamp.
  destruct (Z.ltb_spec (Z.of_nat a) 0) as [|_]; [lia|].
  destruct (Z.ltb_spec (Z.of_nat a + Z.of_nat n) 0) as [|_]; [lia|].
  destruct (decide (a ≤ length l)%nat) as [Ha|Ha].
  - replace (Z.to_nat (Z.of_nat a `min` Z.of_nat (length l))) with a by lia.
    destruct (decide (n ≤ length l - a)%nat) as [Hn|Hn].
    + f_equal. lia.
    + rewrite !take_ge; [done| |]; rewrite length_drop; lia.
  - rewrite !drop_ge by lia. by rewrite !take_nil.
Qed.

(** The pages start at the multiples of the page capacity. *)
Lemma page_starts_9 (n : nat) :
  page_starts n 9 = (λ p : nat, Z.of_nat (9 * p)) <$> seq 0 ((n + 8) / 9).
Proof.
  unfold page_starts.
  replace (Z.to_nat ((Z.of_nat n + 9 - 1) / 9)) with ((n + 8) / 9)%nat.
  - apply list_fmap_ext. intros _ k _. lia.
  - apply Nat2Z.inj. rewrite Z2Nat.id by (apply Z.div_pos; lia).
    rewrite Nat2Z.inj_div. f_equal. lia.
Qed.

Lemma length_page_starts (n : nat) :
  length (page_starts n 9) = ((n + 8) / 9)%nat.
Proof. by rewrite page_starts_9, length_fmap, length_seq. Qed.

Lemma page_starts_lookup (n p : nat) :
  (p < (n + 8) / 9)%nat → page_starts n 9 !! p = Some (Z.of_nat (9 * p)).
Proof.
  intros Hp. rewrite page_starts_9, list_lookup_fmap, lookup_seq_lt by done.
  done.
Qed.

(** The batch of page [p]: the next nine images, numbered from 0. *)
Lemma batch_9 (images : list Path) (p : nat) :
  batch images 9 (Z.of_nat (9 * p))
  = Py.enumerate (take 9 (drop (9 * p) images)).
Proof.
  unfold batch. f_equal.
  exact (list_slice_take_drop images (9 * p) 9).
Qed.

Lemma enumerate_lookup {A} (l : list A) (j : nat) :
  Py.enumerate l !! j = (λ x, (Z.of_nat j, x)) <$> l !! j.
Proof. unfold Py.enumerate. by rewrite list_lookup_imap. Qed.

Lemma enumerate_elem {A} (l : list A) (j : Z) (x : A) :
  (j, x) ∈ Py.enumerate l ↔ 0 ≤ j ∧ l !! Z.to_nat j = Some x.
Proof.
  rewrite list_elem_of_lookup. split.
  - intros [k Hk]. rewrite enumerate_lookup in Hk.
    destruct (l !! k) as [y|] eqn:Hy; simplify_eq/=.
    split; [lia|]. by rewrite Nat2Z.id.
  - intros [Hj Hx]. exists (Z.to_nat j).
    rewrite enumerate_lookup, Hx. simpl. do 2 f_equal. lia.
Qed.

(** Image [n] sits in slot [n mod 9] of the batch of page [n / 9]. *)
Lemma batch_elem_of_image (images : list Path) (n : nat) (x : Path) :
  images !! n = Some x →
  (Z.of_nat (n mod 9), x) ∈ batch images 9 (Z.of_nat (9 * (n / 9))).
Proof.
  intros Hx. rewrite batch_9. apply enumerate_elem. split; [lia|].
  rewrite Nat2Z.id, lookup_take_lt by (apply Nat.mod_upper_bound; lia).
  rewrite lookup_drop. by rewrite <- Nat.div_mod_eq.
Qed.

(** Conversely, slot [j] of the batch of page [p] holds image [9p + j]. *)
Lemma image_of_batch_elem (images : list Path) (p : nat) (j : Z) (x : Path) :
  (j, x) ∈ batch images 9 (Z.of_nat (9 * p)) →
  0 ≤ j < 9 ∧ images !! (9 * p + Z.to_nat j)%nat = Some x.
Proof.
  rewrite batch_9. intros [Hj Hx]%enumerate_elem.
  apply lookup_take_Some in Hx as [Hx Hlt].
  rewrite lookup_drop in Hx. split; [lia|done].
Qed.

(** ** Reading a page *)

Lemma mark_ops_tick_marks k img x y width height :
  mark_ops x y width height
  = tick_marks (DrawImage k img (x * mm) (y * mm)
                          (float_of_int width * mm)
                          (float_of_int height * mm))%float.
Proof. reflexivity. Qed.

Lemma cards_app pg1 pg2 : cards (pg1 ++ pg2) = cards pg1 ++ cards pg2.
Proof. apply omap_app. Qed.

Lemma length_omap_le {A B} (f : A → option B) (l : list A) :
  (length (omap f l) ≤ length l)%nat.
Proof.
  induction l as [|x l IH]; [done|]. cbn [omap list_omap length].
  destruct (f x); cbn [length]; lia.
Qed.

Section reading.

Variable w : world.
Variable enable_cut_marks : bool.
Variables (cols rows : Z) (start_x start_y : float).

#[local] Abbreviation card_ops' :=
  (card_ops w enable_cut_marks cols rows start_x start_y).

Lemma cards_card_ops i j image_path :
  cards (card_ops' i (j, image_path))
  = if drawn w (i + j) image_path then [(i + j, image_path)] else [].
Proof.
  unfold card_ops. destruct (drawn w (i + j) image_path); [|done].
  simpl. by destruct enable_cut_marks.
Qed.

(** The cards of a page are the slots of its batch that were drawn, in
    slot order. *)
Lemma cards_page i (jps : list (Z * Path)) :
  cards (jps ≫= card_ops' i)
  = omap (λ jp, if drawn w (i + jp.1) jp.2
                then Some (i + jp.1, jp.2) else None) jps.
Proof.
  induction jps as [|[j image_path] jps IH]; [done|].
  cbn [mbind list_bind omap list_omap].
  change (cards (card_ops' i (j, image_path) ++ (jps ≫= card_ops' i))
          = (match (if drawn w (i + j) image_path
                    then Some (i + j, image_path) else None) with
             | Some y => y :: omap (λ jp, if drawn w (i + jp.1) jp.2
                                          then Some (i + jp.1, jp.2)
                                          else None) jps
             | None => omap (λ jp, if drawn w (i + jp.1) jp.2
                                   then Some (i + jp.1, jp.2)
                                   else None) jps
             end)).
  rewrite cards_app, cards_card_ops, IH.
  by destruct (drawn w (i + j) image_path).
Qed.

(** A drawn slot puts its card on the page, at its place. *)
Lemma card_on_page i (jps : list (Z * Path)) j image_path :
  (j, image_path) ∈ jps →
  drawn w (i + j) image_path = true →
  DrawImage (i + j) (Card image_path)
            (slot_x start_x (j mod cols) * mm)
            (slot_y rows start_y (j / cols) * mm)
            (float_of_int CARD_WIDTH_MM * mm)
            (float_of_int CARD_HEIGHT_MM * mm)%float
  ∈ jps ≫= card_ops' i.
Proof.
  intros Hin Hdrawn. apply list_elem_of_bind. exists (j, image_path).
  split; [|done]. unfold card_ops. rewrite Hdrawn. apply list_elem_of_here.
Qed.

(** A card on the page comes from a drawn slot. *)
Lemma card_from_slot i (jps : list (Z * Path)) k img x y width height :
  DrawImage k img x y width height ∈ jps ≫= card_ops' i →
  ∃ j image_path,
    (j, image_path) ∈ jps ∧ k = i + j ∧ img = Card image_path
    ∧ drawn w (i + j) image_path = true.
Proof.
  intros ([j image_path] & Hin & Hjp)%list_elem_of_bind.
  exists j, image_path. unfold card_ops in Hin.
  destruct (drawn w (i + j) image_path) eqn:Hdrawn;
    [|by apply elem_of_nil in Hin].
  apply elem_of_cons in Hin as [Heq|Hin].
  - by simplify_eq.
  - destruct enable_cut_marks; [|by apply elem_of_nil in Hin].
    unfold mark_ops in Hin.
    repeat (apply elem_of_cons in Hin as [Heq|Hin]; [discriminate|]).
    by apply elem_of_nil in Hin.
Qed.

(** Without cut marks a page holds images only; with them, every image
    is followed by its tick marks. *)
Lemma page_without_marks i (jps : list (Z * Path)) :
  (jps ≫= card_ops w true cols rows start_x start_y i)
  = (jps ≫= card_ops w false cols rows start_x start_y i)
      ≫= (λ o, o :: tick_marks o).
Proof.
  induction jps as [|[j image_path] jps IH]; [done|].
  cbn [mbind list_bind]. rewrite bind_app.
  change (card_ops w true cols rows start_x start_y i (j, image_path)
          ++ (jps ≫= card_ops w true cols rows start_x start_y i)
          = (card_ops w false cols rows start_x start_y i (j, image_path)
               ≫= (λ o, o :: tick_marks o))
            ++ ((jps ≫= card_ops w false cols rows start_x start_y i)
                  ≫= (λ o, o :: tick_marks o))).
  rewrite IH. f_equal. unfold card_ops.
  by destruct (drawn w (i + j) image_path).
Qed.

Lemma page_images_only i (jps : list (Z * Path)) :
  Forall (λ o, is_image o = true)
         (jps ≫= card_ops w false cols rows start_x start_y i).
Proof.
  apply Forall_forall. intros o ([j image_path] & Hin & _)%list_elem_of_bind.
  unfold card_ops in Hin. destruct (drawn w (i + j) image_path).
  - apply list_elem_of_singleton in Hin. by subst.
  - by apply elem_of_nil in Hin.
Qed.

(** A log line of a slot of a visited page is in the log of the pages. *)
Lemma pages_log_elem images cards_per_page current_page starts i jp e :
  i ∈ starts →
  jp ∈ batch images cards_per_page i →
  e ∈ card_log w i jp →
  e ∈ pages_log w images cards_per_page current_page starts.
Proof.
  intros Hi Hjp He. revert current_page.
  induction starts as [|i' starts IH]; intros current_page;
    [by apply elem_of_nil in Hi|].
  cbn [pages_log]. apply elem_of_cons. right.
  apply elem_of_app.
  apply elem_of_cons in Hi as [->|Hi].
  - left. apply list_elem_of_bind. eauto.
  - right. by apply IH.
Qed.

End reading.

(** ** The document of a full run *)

(** Outside preview mode the document has one page per batch of nine. *)
Lemma generate_pdf_pages w enable_cut_marks images output_path σ :
  images ≠ [] →
  (∀ k, png_save_ok w k = true) →
  canvas_save_ok w = true →
  ∃ σ' doc,
    generate_pdf w enable_cut_marks images output_path false σ = (σ', Ok ())
    ∧ written σ' !! output_path = Some doc
    ∧ pages doc
      = (λ p : nat,
           page_ops w enable_cut_marks 3 3 9.5%float 15.5%float images 9
                    (Z.of_nat (9 * p)))
          <$> seq 0 ((length images + 8) / 9)
    ∧ log σ'
      = log σ
        ++ [(INFO, MsgLayout 3 3)]
        ++ pages_log w images 9 1 (page_starts (length images) 9)
        ++ [(INFO, MsgGenerated output_path);
            (INFO, MsgProcessed
                     (pages_count w images 9 (page_starts (length images) 9))
                     (length images))].
Proof.
  intros Hne Hpng Hsave. eexists _, _.
  split; [by apply generate_pdf_run|]. cbn [written log visited].
  split; [by rewrite lookup_insert_eq|]. cbn [pages].
  split; [|done]. by rewrite page_starts_9, <- list_fmap_compose.
Qed.

Lemma page_lookup w enable_cut_marks images (m p : nat) pg :
  ((λ p : nat,
      page_ops w enable_cut_marks 3 3 9.5%float 15.5%float images 9
               (Z.of_nat (9 * p))) <$> seq 0 m) !! p = Some pg →
  (p < m)%nat
  ∧ pg = page_ops w enable_cut_marks 3 3 9.5%float 15.5%float images 9
                  (Z.of_nat (9 * p)).
Proof.
  rewrite list_lookup_fmap. intros Hpg.
  destruct (seq 0 m !! p) as [p'|] eqn:Hp; [|done].
  apply lookup_seq in Hp as [-> Hp]. by simplify_eq/=.
Qed.

Lemma enumerate_snd {A} (l : list A) : (Py.enumerate l).*2 = l.
Proof.
  apply list_eq. intros j.
  rewrite list_lookup_fmap, enumerate_lookup. by destruct (l !! j).
Qed.

(** When every slot of a batch is drawn, the page shows the batch. *)
Lemma cards_page_all w enable_cut_marks cols rows start_x start_y i
    (jps : list (Z * Path)) :
  (∀ jp, jp ∈ jps → drawn w (i + jp.1) jp.2 = true) →
  cards (jps ≫= card_ops w enable_cut_marks cols rows start_x start_y i)
  = (λ jp, (i + jp.1, jp.2)) <$> jps.
Proof.
  intros Hall. rewrite cards_page.
  induction jps as [|jp jps IH]; [done|].
  cbn [omap list_omap fmap list_fmap].
  rewrite (Hall jp) by apply list_elem_of_here.
  f_equal. apply IH. intros jp' Hjp'. apply Hall. by apply list_elem_of_further.
Qed.

(** Cutting a list into nines and gluing the pieces gives the list. *)
Lemma chunks_concat {A} (m : nat) (l : list A) :
  (length l ≤ 9 * m)%nat →
  concat ((λ p : nat, take 9 (drop (9 * p) l)) <$> seq 0 m) = l.
Proof.
  revert l. induction m as [|m IH]; intros l Hlen.
  - destruct l; simpl in *; [done|lia].
  - cbn [seq fmap list_fmap concat]. rewrite <- fmap_S_seq, <- list_fmap_compose.
    transitivity (take 9 l ++ drop 9 l); [|apply take_drop]. f_equal.
    rewrite <- (IH (drop 9 l)) by (rewrite length_drop; lia).
    f_equal. apply list_fmap_ext. intros _ p _. simpl.
    rewrite drop_drop. do 2 f_equal. lia.
Qed.

(** ** Pagination *)

(** The size of batch [p] of [n] images cut into nines. *)
Lemma last_batch_size (n : nat) :
  (0 < n)%nat →
  (9 `min` (n - 9 * Nat.pred ((n + 8) / 9)))%nat
  = if (n mod 9 =? 0)%nat then 9%nat else (n mod 9)%nat.
Proof.
  intros Hn.
  pose proof (Nat.div_mod_eq n 9) as H1.
  pose proof (Nat.mod_upper_bound n 9) as H2.
  pose proof (Nat.div_mod_eq (n + 8) 9) as H3.
  pose proof (Nat.mod_upper_bound (n + 8) 9) as H4.
  destruct (Nat.eqb_spec (n mod 9) 0) as [Hr|Hr];
    generalize dependent (n mod 9)%nat; generalize dependent (n / 9)%nat;
    generalize dependent ((n + 8) mod 9)%nat;
    generalize dependent ((n + 8) / 9)%nat; intros; lia.
Qed.

(** C5, as the code has it. With a page capacity of 3 x 3 = 9, a run
    outside preview mode whose N images all load and draw writes a document
    of ceil(N/9) pages; page [p] shows the images [9p .. 9p+8] of the list,
    in order, so the pages taken together show the list; the last page
    shows N mod 9 images, or 9 when 9 divides N. In particular ten images
    give two pages, of nine cards and of one. *)
Theorem batches_fill_pages (w : world) (enable_cut_marks : bool)
    (images : list Path) (output_path : string) (σ : proc) :
  images ≠ [] →
  (∀ k, png_save_ok w k = true) →
  canvas_save_ok w = true →
  (∀ image_path, image_path ∈ images → pil_ok w image_path = true) →
  (∀ k, draw_image_ok w k = true) →
  ∃ σ' doc,
    generate_pdf w enable_cut_marks images output_path false σ = (σ', Ok ())
    ∧ written σ' !! output_path = Some doc
    ∧ length (pages doc) = ((length images + 8) / 9)%nat
    ∧ (∀ (p : nat) pg,
         pages doc !! p = Some pg →
         (cards pg).*2 = take 9 (drop (9 * p) images))
    ∧ concat ((λ pg, (cards pg).*2) <$> pages doc) = images
    ∧ (∃ pg, last (pages doc) = Some pg
             ∧ length (cards pg)
               = if (length images mod 9 =? 0)%nat
                 then 9%nat else (length images mod 9)%nat)
    ∧ (length images = 10%nat →
       ∃ pg1 pg2, pages doc = [pg1; pg2]
                  ∧ length (cards pg1) = 9%nat ∧ length (cards pg2) = 1%nat).
Proof.
  intros Hne Hpng Hsave Hpil Hdraw.
  destruct (generate_pdf_pages w enable_cut_marks images output_path σ)
    as (σ' & doc & Hrun & Hdoc & Hpages & _); [done..|].
  exists σ', doc. split; [done|]. split; [done|].
  assert (∀ (p : nat) pg,
            pages doc !! p = Some pg →
            (cards pg).*2 = take 9 (drop (9 * p) images)) as Hpage.
  { intros p pg Hpg. rewrite Hpages in Hpg.
    apply page_lookup in Hpg as [_ ->]. unfold page_ops.
    rewrite cards_page_all.
    - rewrite <- list_fmap_compose, batch_9.
      rewrite <- (enumerate_snd (take 9 (drop (9 * p) images))) at 2.
      by apply list_fmap_ext.
    - intros [j image_path] [_ Hx]%image_of_batch_elem. unfold drawn. simpl.
      rewrite Hdraw, Hpil; [done|]. by eapply list_elem_of_lookup_2. }
  assert (length (pages doc) = ((length images + 8) / 9)%nat) as Hlen.
  { by rewrite Hpages, length_fmap, length_seq. }
  assert (0 < length images)%nat as Hpos.
  { destruct images; simpl; [done|lia]. }
  split; [done|]. split; [done|]. split; [|split].
  - transitivity (concat ((λ p : nat, take 9 (drop (9 * p) images))
                            <$> seq 0 ((length images + 8) / 9)));
      [|apply chunks_concat].
    + rewrite Hpages, <- list_fmap_compose. f_equal.
      apply list_eq. intros p. rewrite !list_lookup_fmap.
      destruct (seq 0 ((length images + 8) / 9) !! p) as [p'|] eqn:Hp;
        [|done].
      apply lookup_seq in Hp as [-> Hp]. simpl. f_equal.
      apply Hpage. rewrite Hpages, list_lookup_fmap, lookup_seq_lt by done.
      done.
    + pose proof (Nat.div_mod_eq (length images + 8) 9).
      pose proof (Nat.mod_upper_bound (length images + 8) 9). lia.
  - rewrite last_lookup, Hlen.
    destruct (pages doc !! Nat.pred ((length images + 8) / 9)) as [pg|] eqn:Hpg.
    + exists pg. split; [done|].
      rewrite <- (length_fmap snd), (Hpage _ _ Hpg).
      rewrite length_take, length_drop. by apply last_batch_size.
    + apply lookup_ge_None in Hpg. rewrite Hlen in Hpg.
      pose proof (Nat.div_mod_eq (length images + 8) 9).
      pose proof (Nat.mod_upper_bound (length images + 8) 9). lia.
  - intros Hten. rewrite Hten in Hlen. change ((10 + 8) / 9)%nat with 2%nat in Hlen.
    destruct (pages doc) as [|pg1 [|pg2 [|]]] eqn:Hdocpages; try done.
    exists pg1, pg2. split; [done|].
    pose proof (Hpage 0%nat pg1 eq_refl) as H1.
    pose proof (Hpage 1%nat pg2 eq_refl) as H2.
    apply (f_equal length) in H1, H2.
    rewrite length_fmap, length_take, length_drop in H1, H2. lia.
Qed.

Lemma batches_fill_pages_witness :
  ∃ σ' doc,
    generate_pdf Examples.friendly false Examples.ten_images "out.pdf" false
                 Examples.fresh = (σ', Ok ())
    ∧ written σ' !! "out.pdf"%string = Some doc
    ∧ length (pages doc) = ((length Examples.ten_images + 8) / 9)%nat
    ∧ (∀ (p : nat) pg,
         pages doc !! p = Some pg →
         (cards pg).*2 = take 9 (drop (9 * p) Examples.ten_images))
    ∧ concat ((λ pg, (cards pg).*2) <$> pages doc) = Examples.ten_images
    ∧ (∃ pg, last (pages doc) = Some pg
             ∧ length (cards pg)
               = if (length Examples.ten_images mod 9 =? 0)%nat
                 then 9%nat else (length Examples.ten_images mod 9)%nat)
    ∧ (length Examples.ten_images = 10%nat →
       ∃ pg1 pg2, pages doc = [pg1; pg2]
                  ∧ length (cards pg1) = 9%nat ∧ length (cards pg2) = 1%nat).
Proof.
  apply (batches_fill_pages Examples.friendly false Examples.ten_images
           "out.pdf" Examples.fresh);
    [discriminate | reflexivity | reflexivity | reflexivity | reflexivity].
Defined.

(** The specification's own example fails as it words it: ten images and
    the 3 x 3 layout give a document of two pages, nine cards and one
    card, not of four. *)
Lemma ten_images_make_two_pages :
  ∃ σ' doc,
    main Examples.friendly default_args Examples.fresh = (σ', 0)
    ∧ written σ' !! "mtg_cards.pdf"%string = Some doc
    ∧ length (pages doc) = 2%nat
    ∧ (λ pg, length (cards pg)) <$> pages doc = [9%nat; 1%nat]
    ∧ length (pages doc) ≠ 4%nat.
Proof.
  eexists _, _. split; [vm_compute; reflexivity|].
  split; [vm_compute; reflexivity|].
  split; [reflexivity|]. split; [reflexivity|]. discriminate.
Qed.

(** ** Images that fail *)

Section failures.

Variable w : world.
Variable enable_cut_marks : bool.
Variables (cols rows : Z) (start_x start_y : float).

#[local] Abbreviation card_ops'' :=
  (card_ops w enable_cut_marks cols rows start_x start_y).

(** The counter of drawn cards counts the cards on the page. *)
Lemma card_count_cards i (jps : list (Z * Path)) :
  foldr Z.add 0 (card_count w i <$> jps)
  = Z.of_nat (length (cards (jps ≫= card_ops'' i))).
Proof.
  rewrite cards_page. induction jps as [|[j image_path] jps IH]; [done|].
  cbn [fmap list_fmap foldr omap list_omap]. unfold card_count at 1.
  cbn [fst snd]. fold (@fmap list _ _ _ (card_count w i) jps). rewrite IH.
  destruct (drawn w (i + j) image_path); cbn [length]; lia.
Qed.

(** A batch whose images all fail to load leaves its page empty. *)
Lemma unreadable_batch_draws_nothing i (jps : list (Z * Path)) :
  (∀ jp, jp ∈ jps → pil_ok w jp.2 = false) →
  jps ≫= card_ops'' i = [].
Proof.
  intros Hbad. induction jps as [|[j image_path] jps IH]; [done|].
  cbn [mbind list_bind].
  change (card_ops'' i (j, image_path) ++ (jps ≫= card_ops'' i) = []).
  rewrite IH by (intros jp Hjp; apply Hbad; by apply list_elem_of_further).
  pose proof (Hbad (j, image_path) (list_elem_of_here _ _)) as Hj.
  simpl in Hj. unfold card_ops, drawn. by rewrite Hj.
Qed.

Lemma pages_count_cards images (starts : list Z) :
  pages_count w images 9 starts
  = Z.of_nat (length (((λ i, batch images 9 i ≫= card_ops'' i) <$> starts)
                        ≫= cards)).
Proof.
  unfold pages_count. induction starts as [|i starts IH]; [done|].
  cbn [fmap list_fmap foldr mbind list_bind].
  fold (@fmap list _ _ _
          (λ i0, foldr Z.add 0 (card_count w i0 <$> batch images 9 i0)) starts).
  fold (@fmap list _ _ _ (λ i0, batch images 9 i0 ≫= card_ops'' i0) starts).
  fold (@mbind list _ _ _ cards
          ((λ i0, batch images 9 i0 ≫= card_ops'' i0) <$> starts)).
  rewrite IH, card_count_cards, length_app. lia.
Qed.

End failures.

Lemma pages_as_starts w enable_cut_marks images (n : nat) :
  (λ p : nat,
     page_ops w enable_cut_marks 3 3 9.5%float 15.5%float images 9
              (Z.of_nat (9 * p))) <$> seq 0 ((n + 8) / 9)
  = page_ops w enable_cut_marks 3 3 9.5%float 15.5%float images 9
      <$> page_starts n 9.
Proof. by rewrite page_starts_9, <- list_fmap_compose. Qed.

(** C10. Outside preview mode one page is closed per batch whatever
    happens to the images: the document has ceil(N/9) pages for N images,
    a batch whose images all fail to load still gives a (blank) page, no
    page shows more cards than its batch has images, and the number of
    cards reported at the end is the number of cards on the pages. *)
Theorem failures_keep_every_page (w : world) (enable_cut_marks : bool)
    (images : list Path) (output_path : string) (σ : proc) :
  images ≠ [] →
  (∀ k, png_save_ok w k = true) →
  canvas_save_ok w = true →
  ∃ σ' doc,
    generate_pdf w enable_cut_marks images output_path false σ = (σ', Ok ())
    ∧ written σ' !! output_path = Some doc
    ∧ length (pages doc) = ((length images + 8) / 9)%nat
    ∧ (∀ (p : nat) pg,
         pages doc !! p = Some pg →
         (∀ image_path, image_path ∈ take 9 (drop (9 * p) images) →
                        pil_ok w image_path = false) →
         pg = [])
    ∧ (∀ (p : nat) pg,
         pages doc !! p = Some pg →
         (length (cards pg) ≤ length (take 9 (drop (9 * p) images)))%nat)
    ∧ last (log σ')
      = Some (INFO, MsgProcessed (Z.of_nat (length (pages doc ≫= cards)))
                                 (length images)).
Proof.
  intros Hne Hpng Hsave.
  destruct (generate_pdf_pages w enable_cut_marks images output_path σ)
    as (σ' & doc & Hrun & Hdoc & Hpages & Hlog); [done..|].
  exists σ', doc. split; [done|]. split; [done|].
  split; [by rewrite Hpages, length_fmap, length_seq|].
  split; [|split].
  - intros p pg Hpg Hbad. rewrite Hpages in Hpg.
    apply page_lookup in Hpg as [_ ->].
    apply unreadable_batch_draws_nothing.
    intros [j image_path] Hjp. simpl. apply Hbad.
    rewrite batch_9 in Hjp. apply enumerate_elem in Hjp as [_ Hjp].
    by eapply list_elem_of_lookup_2.
  - intros p pg Hpg. rewrite Hpages in Hpg.
    apply page_lookup in Hpg as [_ ->]. unfold page_ops.
    rewrite cards_page, batch_9.
    etransitivity; [apply length_omap_le|].
    unfold Py.enumerate. by rewrite length_imap.
  - rewrite Hlog, !last_app. cbn [last]. do 3 f_equal.
    rewrite Hpages, pages_as_starts. apply pages_count_cards.
Qed.

Lemma failures_keep_every_page_witness :
  ∃ σ' doc,
    generate_pdf Examples.all_unreadable false Examples.ten_images "out.pdf"
                 false Examples.fresh = (σ', Ok ())
    ∧ written σ' !! "out.pdf"%string = Some doc
    ∧ length (pages doc) = ((length Examples.ten_images + 8) / 9)%nat
    ∧ (∀ (p : nat) pg,
         pages doc !! p = Some pg →
         (∀ image_path,
            image_path ∈ take 9 (drop (9 * p) Examples.ten_images) →
            pil_ok Examples.all_unreadable image_path = false) →
         pg = [])
    ∧ (∀ (p : nat) pg,
         pages doc !! p = Some pg →
         (length (cards pg)
          ≤ length (take 9 (drop (9 * p) Examples.ten_images)))%nat)
    ∧ last (log σ')
      = Some (INFO, MsgProcessed (Z.of_nat (length (pages doc ≫= cards)))
                                 (length Examples.ten_images)).
Proof.
  apply (failures_keep_every_page Examples.all_unreadable false
           Examples.ten_images "out.pdf" Examples.fresh);
    [discriminate | reflexivity | reflexivity].
Defined.

(** ** A run of [main] on a directory *)

Lemma find_image_files_dir w source_dir rglob σ :
  stat w source_dir = Some (Directory rglob) →
  ∃ image_files,
    find_image_files w source_dir σ
    = (Proc (log σ ++ [(INFO, MsgFound (length image_files) source_dir)])
            (written σ) (incomplete σ),
       Ok (sorted image_files)).
Proof.
  intros Hstat. unfold find_image_files. rewrite Hstat. by eexists.
Qed.

(** With a directory to read and writes that go through, [main] ends with
    status 0, and the only document it may write is its output. *)
Lemma main_dir w a rglob σ :
  stat w (source_dir a) = Some (Directory rglob) →
  (∀ k, png_save_ok w k = true) →
  canvas_save_ok w = true →
  ∃ σ', main w a σ = (σ', 0)
        ∧ (written σ' = written σ
           ∨ ∃ images,
               images ≠ []
               ∧ written σ'
                 = <[output a :=
                       Canvas (output a) "Cartes Magic The Gathering"
                              "MTG PDF Generator" "Impression de cartes MTG"
                              (page_ops w (cut_marks_setting a) 3 3
                                        9.5%float 15.5%float images 9
                                 <$> visited (preview a)
                                       (page_starts (length images) 9))
                              []]> (written σ)).
Proof.
  intros Hstat Hpng Hsave.
  destruct (find_image_files_dir w (source_dir a) rglob
              (Proc (log σ ++ [(INFO, MsgStart)]) (written σ) (incomplete σ))
              Hstat)
    as [image_files Hfind].
  unfold main, main_try.
  unfold mbind at 1, M_bind at 1, logger at 1, modify at 1. cbv beta.
  unfold mbind at 1, M_bind at 1. rewrite Hfind.
  destruct (sorted image_files) as [|image_path images] eqn:Hsorted.
  - eexists. split; [reflexivity|]. by left.
  - unfold mbind at 1, M_bind at 1.
    rewrite generate_pdf_run by done. cbv zeta.
    eexists. split; [reflexivity|]. right.
    by exists (image_path :: images).
Qed.

(** C9. When an image fails to load, the failure is logged, no card is
    drawn for that image on any page, every other image that loads and
    draws still gets its card on its page (in the same batch or a later
    one), and the run ends normally: [generate_pdf] returns, and [main]
    exits with status 0 whenever the source is a directory. *)
Theorem unreadable_image_is_skipped (w : world) (enable_cut_marks : bool)
    (images : list Path) (output_path : string) (σ : proc)
    (n : nat) (image_path : Path) :
  (∀ k, png_save_ok w k = true) →
  canvas_save_ok w = true →
  images !! n = Some image_path →
  pil_ok w image_path = false →
  ∃ σ' doc,
    generate_pdf w enable_cut_marks images output_path false σ = (σ', Ok ())
    ∧ written σ' !! output_path = Some doc
    ∧ (ERROR, MsgResizeError image_path) ∈ log σ'
    ∧ (∀ pg img x y width height,
         pg ∈ pages doc →
         DrawImage (Z.of_nat n) img x y width height ∉ pg)
    ∧ (∀ (m : nat) other,
         images !! m = Some other →
         pil_ok w other = true →
         draw_image_ok w (Z.of_nat m) = true →
         ∃ pg, pages doc !! (m / 9)%nat = Some pg
               ∧ (Z.of_nat m, other) ∈ cards pg)
    ∧ (∀ a rglob,
         stat w (source_dir a) = Some (Directory rglob) →
         (main w a σ).2 = 0).
Proof.
  intros Hpng Hsave Hn Hbad.
  assert (images ≠ []) as Hne by (by destruct images).
  destruct (generate_pdf_pages w enable_cut_marks images output_path σ)
    as (σ' & doc & Hrun & Hdoc & Hpages & Hlog); [done..|].
  assert (∀ m : nat, (m < length images)%nat →
                     (m / 9 < (length images + 8) / 9)%nat) as Hpage.
  { intros m Hm. apply Nat.Div0.div_lt_upper_bound.
    pose proof (Nat.div_mod_eq (length images + 8) 9).
    pose proof (Nat.mod_upper_bound (length images + 8) 9). lia. }
  assert (∀ m : nat, Z.of_nat (9 * (m / 9)) + Z.of_nat (m mod 9) = Z.of_nat m)
    as Hsplit.
  { intros m. pose proof (Nat.div_mod_eq m 9). lia. }
  exists σ', doc. split; [done|]. split; [done|].
  split; [|split; [|split]].
  - rewrite Hlog. apply elem_of_app. right. apply elem_of_app. right.
    apply elem_of_app. left.
    apply (pages_log_elem w images 9 1 _ (Z.of_nat (9 * (n / 9)))
             (Z.of_nat (n mod 9), image_path)).
    + apply list_elem_of_lookup. exists (n / 9)%nat.
      apply page_starts_lookup, Hpage. by eapply lookup_lt_Some.
    + by apply batch_elem_of_image.
    + unfold card_log. rewrite Hbad. apply list_elem_of_here.
  - intros pg img x y width height Hpg Hdrawn.
    rewrite Hpages in Hpg. apply list_elem_of_lookup in Hpg as [p Hpg].
    apply page_lookup in Hpg as [_ ->].
    apply card_from_slot in Hdrawn as (j & other & Hslot & Hk & _ & Hok).
    apply image_of_batch_elem in Hslot as [Hj Hother].
    replace (9 * p + Z.to_nat j)%nat with n in Hother by lia.
    rewrite Hn in Hother. injection Hother as <-.
    unfold drawn in Hok. by rewrite Hbad in Hok.
  - intros m other Hm Hpil Hdraw.
    exists (page_ops w enable_cut_marks 3 3 9.5%float 15.5%float images 9
                     (Z.of_nat (9 * (m / 9)))).
    split.
    + rewrite Hpages, list_lookup_fmap, lookup_seq_lt; [done|].
      apply Hpage. by eapply lookup_lt_Some.
    + unfold page_ops. rewrite cards_page. apply list_elem_of_omap.
      exists (Z.of_nat (m mod 9), other).
      split; [by apply batch_elem_of_image|]. cbn [fst snd].
      rewrite Hsplit. unfold drawn. by rewrite Hpil, Hdraw.
  - intros a rglob Hstat.
    destruct (main_dir w a rglob σ) as (σ'' & -> & _); done.
Qed.

Lemma unreadable_image_is_skipped_witness :
  ∃ σ' doc,
    generate_pdf Examples.one_unreadable false Examples.ten_images "out.pdf"
                 false Examples.fresh = (σ', Ok ())
    ∧ written σ' !! "out.pdf"%string = Some doc
    ∧ (ERROR, MsgResizeError ["images"; "card_02.png"]%string) ∈ log σ'
    ∧ (∀ pg img x y width height,
         pg ∈ pages doc →
         DrawImage (Z.of_nat 1) img x y width height ∉ pg)
    ∧ (∀ (m : nat) other,
         Examples.ten_images !! m = Some other →
         pil_ok Examples.one_unreadable other = true →
         draw_image_ok Examples.one_unreadable (Z.of_nat m) = true →
         ∃ pg, pages doc !! (m / 9)%nat = Some pg
               ∧ (Z.of_nat m, other) ∈ cards pg)
    ∧ (∀ a rglob,
         stat Examples.one_unreadable (source_dir a) = Some (Directory rglob) →
         (main Examples.one_unreadable a Examples.fresh).2 = 0).
Proof.
  apply (unreadable_image_is_skipped Examples.one_unreadable false
           Examples.ten_images "out.pdf" Examples.fresh 1
           ["images"; "card_02.png"]%string);
    reflexivity.
Defined.

(** ** Slot placement *)

(** C6. With the layout [calculate_layout] returns, image [n] of the list,
    when it loads and draws, is put on page [n div 9] in slot
    [j = n mod 9], that is in column [j mod cols] and row [j div cols], at
    [x = start_x + col * (card width + spacing)] and
    [y = start_y + (rows - 1 - row) * (card height + spacing)] (in
    millimetres, converted to points for the canvas). The cards of a page
    are the drawn slots of its batch in slot order. Rows further down have
    a smaller [y], so row 0 is the topmost one; columns further right have
    a larger [x]. *)
Theorem slots_follow_reading_order (w : world) (enable_cut_marks : bool)
    (images : list Path) (output_path : string) (σ : proc) :
  images ≠ [] →
  (∀ k, png_save_ok w k = true) →
  canvas_save_ok w = true →
  ∃ σ' doc cols rows start_x start_y,
    (calculate_layout σ).2 = Ok (cols, rows, start_x, start_y)
    ∧ generate_pdf w enable_cut_marks images output_path false σ
      = (σ', Ok ())
    ∧ written σ' !! output_path = Some doc
    ∧ let x_of col :=
        (start_x
         + float_of_int (col * (CARD_WIDTH_MM + CARD_SPACING_X)))%float in
      let y_of row :=
        (start_y
         + float_of_int ((rows - 1 - row)
                         * (CARD_HEIGHT_MM + CARD_SPACING_Y)))%float in
      (∀ (n : nat) image_path,
         images !! n = Some image_path →
         pil_ok w image_path = true →
         draw_image_ok w (Z.of_nat n) = true →
         let j := Z.of_nat (n mod 9) in
         let col := j mod cols in
         let row := j / cols in
         0 ≤ col < cols ∧ 0 ≤ row < rows
         ∧ ∃ pg, pages doc !! (n / 9)%nat = Some pg
                 ∧ DrawImage (Z.of_nat n) (Card image_path)
                             (x_of col * mm) (y_of row * mm)
                             (float_of_int CARD_WIDTH_MM * mm)
                             (float_of_int CARD_HEIGHT_MM * mm)%float ∈ pg)
      ∧ (∀ (p : nat) pg,
           pages doc !! p = Some pg →
           cards pg
           = omap (λ jp, if drawn w (Z.of_nat (9 * p) + jp.1) jp.2
                         then Some (Z.of_nat (9 * p) + jp.1, jp.2) else None)
                  (Py.enumerate (take 9 (drop (9 * p) images))))
      ∧ (∀ row row', 0 ≤ row → row < row' → row' < rows →
                     (y_of row' <? y_of row)%float = true)
      ∧ (∀ col col', 0 ≤ col → col < col' → col' < cols →
                     (x_of col <? x_of col')%float = true).
Proof.
  intros Hne Hpng Hsave.
  destruct (generate_pdf_pages w enable_cut_marks images output_path σ)
    as (σ' & doc & Hrun & Hdoc & Hpages & _); [done..|].
  exists σ', doc, 3, 3, 9.5%float, 15.5%float.
  split; [by rewrite calculate_layout_run|]. split; [done|]. split; [done|].
  cbv zeta. split; [|split; [|split]].
  - intros n image_path Hn Hpil Hdraw.
    pose proof (Nat.mod_upper_bound n 9 ltac:(lia)) as Hj.
    split; [apply Z.mod_pos_bound; lia|].
    split.
    { split; [apply Z.div_pos; lia|]. apply Z.div_lt_upper_bound; lia. }
    exists (page_ops w enable_cut_marks 3 3 9.5%float 15.5%float images 9
                     (Z.of_nat (9 * (n / 9)))).
    split.
    + rewrite Hpages, list_lookup_fmap, lookup_seq_lt; [done|].
      apply Nat.Div0.div_lt_upper_bound.
      pose proof (lookup_lt_Some _ _ _ Hn).
      pose proof (Nat.div_mod_eq (length images + 8) 9).
      pose proof (Nat.mod_upper_bound (length images + 8) 9). lia.
    + assert (Z.of_nat (9 * (n / 9)) + Z.of_nat (n mod 9) = Z.of_nat n)
        as Hsplit by (pose proof (Nat.div_mod_eq n 9); lia).
      rewrite <- Hsplit at 1.
      apply (card_on_page w enable_cut_marks 3 3 9.5%float 15.5%float).
      * by apply batch_elem_of_image.
      * unfold drawn. by rewrite Hsplit, Hpil, Hdraw.
  - intros p pg Hpg. rewrite Hpages in Hpg.
    apply page_lookup in Hpg as [_ ->]. unfold page_ops.
    by rewrite cards_page, batch_9.
  - intros row row' H0 Hlt H3.
    assert (row = 0 ∧ row' = 1 ∨ row = 0 ∧ row' = 2 ∨ row = 1 ∧ row' = 2)
      as [[-> ->]|[[-> ->]|[-> ->]]] by lia; reflexivity.
  - intros col col' H0 Hlt H3.
    assert (col = 0 ∧ col' = 1 ∨ col = 0 ∧ col' = 2 ∨ col = 1 ∧ col' = 2)
      as [[-> ->]|[[-> ->]|[-> ->]]] by lia; reflexivity.
Qed.

Lemma slots_follow_reading_order_witness :
  ∃ σ' doc cols rows start_x start_y,
    (calculate_layout Examples.fresh).2 = Ok (cols, rows, start_x, start_y)
    ∧ generate_pdf Examples.friendly false Examples.ten_images "out.pdf"
                   false Examples.fresh
      = (σ', Ok ())
    ∧ written σ' !! "out.pdf"%string = Some doc
    ∧ let x_of col :=
        (start_x
         + float_of_int (col * (CARD_WIDTH_MM + CARD_SPACING_X)))%float in
      let y_of row :=
        (start_y
         + float_of_int ((rows - 1 - row)
                         * (CARD_HEIGHT_MM + CARD_SPACING_Y)))%float in
      (∀ (n : nat) image_path,
         Examples.ten_images !! n = Some image_path →
         pil_ok Examples.friendly image_path = true →
         draw_image_ok Examples.friendly (Z.of_nat n) = true →
         let j := Z.of_nat (n mod 9) in
         let col := j mod cols in
         let row := j / cols in
         0 ≤ col < cols ∧ 0 ≤ row < rows
         ∧ ∃ pg, pages doc !! (n / 9)%nat = Some pg
                 ∧ DrawImage (Z.of_nat n) (Card image_path)
                             (x_of col * mm) (y_of row * mm)
                             (float_of_int CARD_WIDTH_MM * mm)
                             (float_of_int CARD_HEIGHT_MM * mm)%float ∈ pg)
      ∧ (∀ (p : nat) pg,
           pages doc !! p = Some pg →
           cards pg
           = omap (λ jp, if drawn Examples.friendly
                               (Z.of_nat (9 * p) + jp.1) jp.2
                         then Some (Z.of_nat (9 * p) + jp.1, jp.2) else None)
                  (Py.enumerate (take 9 (drop (9 * p) Examples.ten_images))))
      ∧ (∀ row row', 0 ≤ row → row < row' → row' < rows →
                     (y_of row' <? y_of row)%float = true)
      ∧ (∀ col col', 0 ≤ col → col < col' → col' < cols →
                     (x_of col <? x_of col')%float = true).
Proof.
  apply (slots_follow_reading_order Examples.friendly false
           Examples.ten_images "out.pdf" Examples.fresh);
    [discriminate | reflexivity | reflexivity].
Defined.

(** ** Cut marks *)

Lemma images_only_with_marks (pg : page) :
  Forall (λ o, is_image o = true) pg →
  images_only (pg ≫= (λ o, o :: tick_marks o)) = pg.
Proof.
  induction 1 as [|o pg Ho _ IH]; [done|].
  cbn [mbind list_bind].
  change (images_only ((o :: tick_marks o)
                       ++ (pg ≫= (λ o, o :: tick_marks o))) = o :: pg).
  unfold images_only in *. rewrite List.filter_app, IH.
  by destruct o.
Qed.

(** C2, as the code has it. Cut marks are off by default: the global
    [ENABLE_CUT_MARKS] starts as [False] and [main] can only set it to
    [False], so whatever the flags a document [main] writes holds card
    images only; [--no-cut-marks] changes nothing. When the global is set
    to [True] in the configuration block, every drawn card is followed by
    tick marks at its four corners, and nothing else changes: the pages
    without their marks are the pages of the run without marks (same
    cards, same positions), and the log is the same. *)
Theorem cut_marks_stay_off (w : world) (images : list Path)
    (output_path : string) (preview_only : bool) (σ : proc) :
  images ≠ [] →
  (∀ k, png_save_ok w k = true) →
  canvas_save_ok w = true →
  ENABLE_CUT_MARKS = false
  ∧ (∀ a, cut_marks_setting a = false)
  ∧ (∀ a doc,
       written σ !! output a = None →
       written (main w a σ).1 !! output a = Some doc →
       Forall (Forall (λ o, is_image o = true)) (pages doc))
  ∧ ∃ σ' plain marked,
      generate_pdf w false images output_path preview_only σ = (σ', Ok ())
      ∧ written σ' !! output_path = Some plain
      ∧ generate_pdf w true images output_path preview_only σ
        = (Proc (log σ') (<[output_path := marked]> (written σ))
                (incomplete σ ∖ {[output_path]}),
           Ok ())
      ∧ Forall (Forall (λ o, is_image o = true)) (pages plain)
      ∧ pages marked = (λ pg, pg ≫= (λ o, o :: tick_marks o)) <$> pages plain
      ∧ images_only <$> pages marked = pages plain.
Proof.
  intros Hne Hpng Hsave. split; [done|].
  assert (∀ a, cut_marks_setting a = false) as Hoff.
  { intros a. unfold cut_marks_setting. by destruct (no_cut_marks a). }
  split; [done|]. split.
  - intros a doc Hfree Hdoc.
    destruct (stat w (source_dir a)) as [[|rglob]|] eqn:Hstat.
    + rewrite (main_no_directory w a σ NotADirectoryError) in Hdoc by eauto.
      simpl in Hdoc. congruence.
    + destruct (main_dir w a rglob σ) as (σ' & Hmain & Hwritten); [done..|].
      rewrite Hmain in Hdoc. simpl in Hdoc.
      destruct Hwritten as [Hsame|(found & _ & Hwritten)];
        rewrite ?Hsame, ?Hwritten in Hdoc; [congruence|].
      rewrite lookup_insert_eq in Hdoc. injection Hdoc as <-. simpl.
      rewrite Hoff. apply Forall_fmap, Forall_forall. intros i _.
      apply page_images_only.
    + rewrite (main_no_directory w a σ FileNotFoundError) in Hdoc by eauto.
      simpl in Hdoc. congruence.
  - eexists _, _, _. split; [by apply generate_pdf_run|].
    cbn [written log]. split; [by rewrite lookup_insert_eq|].
    split; [by rewrite generate_pdf_run|]. cbn [pages].
    assert (Forall (Forall (λ o, is_image o = true))
              (page_ops w false 3 3 9.5%float 15.5%float images 9
                 <$> visited preview_only (page_starts (length images) 9)))
      as Hplain.
    { apply Forall_fmap, Forall_forall. intros i _. apply page_images_only. }
    split; [done|].
    assert (page_ops w true 3 3 9.5%float 15.5%float images 9
              <$> visited preview_only (page_starts (length images) 9)
            = (λ pg, pg ≫= (λ o, o :: tick_marks o))
                <$> (page_ops w false 3 3 9.5%float 15.5%float images 9
                       <$> visited preview_only
                             (page_starts (length images) 9))) as Hmarked.
    { rewrite <- list_fmap_compose. apply list_fmap_ext. intros _ i _.
      apply page_without_marks. }
    split; [done|]. rewrite Hmarked, <- list_fmap_compose.
    etransitivity; [|apply list_fmap_id].
    apply Forall_fmap_ext_1.
    eapply Forall_impl; [exact Hplain|]. intros pg Hpg. simpl.
    by apply images_only_with_marks.
Qed.

Lemma cut_marks_stay_off_witness :
  ENABLE_CUT_MARKS = false
  ∧ (∀ a, cut_marks_setting a = false)
  ∧ (∀ a doc,
       written Examples.fresh !! output a = None →
       written (main Examples.friendly a Examples.fresh).1 !! output a
       = Some doc →
       Forall (Forall (λ o, is_image o = true)) (pages doc))
  ∧ ∃ σ' plain marked,
      generate_pdf Examples.friendly false Examples.ten_images "out.pdf"
                   false Examples.fresh = (σ', Ok ())
      ∧ written σ' !! "out.pdf"%string = Some plain
      ∧ generate_pdf Examples.friendly true Examples.ten_images "out.pdf"
                     false Examples.fresh
        = (Proc (log σ') (<["out.pdf"%string := marked]>
                            (written Examples.fresh))
                (incomplete Examples.fresh ∖ {["out.pdf"%string]}),
           Ok ())
      ∧ Forall (Forall (λ o, is_image o = true)) (pages plain)
      ∧ pages marked = (λ pg, pg ≫= (λ o, o :: tick_marks o)) <$> pages plain
      ∧ images_only <$> pages marked = pages plain.
Proof.
  apply (cut_marks_stay_off Examples.friendly Examples.ten_images "out.pdf"
           false Examples.fresh);
    [discriminate | reflexivity | reflexivity].
Defined.

(** Marks are not drawn by default: with the parser's defaults and ten
    readable images, the setting is off and the document holds the ten
    card images and not one line. *)
Lemma default_run_draws_no_marks :
  cut_marks_setting default_args = false
  ∧ ∃ σ' doc,
      main Examples.friendly default_args Examples.fresh = (σ', 0)
      ∧ written σ' !! "mtg_cards.pdf"%string = Some doc
      ∧ images_only <$> pages doc = pages doc
      ∧ length (concat (pages doc)) = 10%nat.
Proof.
  split; [reflexivity|].
  eexists _, _. split; [vm_compute; reflexivity|].
  split; [vm_compute; reflexivity|]. split; reflexivity.
Qed.

End GenerateMtgPdfFacts.


(** * More about [cleanSRT.py] *)

Module CleanSRTMore.

Import CleanSRT CleanSRTFacts.

(** ** One iteration *)

(** A candidate always has a target: [index] cannot fail on it. *)
Lemma target_defined filename :
  candidate filename = true →
  ∃ c1 c2,
    target filename
    = Ok (String (Py.lower_char c1) (String (Py.lower_char c2) ".srt")).
Proof.
  intros Hc.
  destruct (candidate_shape _ Hc)
    as (pre & c1 & c2 & rest & -> & _ & Hidx & _).
  exists c1, c2. by apply target_shape.
Qed.

(** What one iteration does to a candidate that is on disk. *)
Lemma body_candidate st filename f2 new :
  candidate filename = true →
  target filename = Ok f2 →
  disk st !! filename = Some new →
  ∃ d',
    body filename st = (State d' (stdout st ++ [filename]), Ok ())
    ∧ d' !! filename = None
    ∧ d' !! f2
      = Some (match disk st !! f2 with
              | Some old => if (size new <? size old)%N then new else old
              | None => new
              end)
    ∧ (∀ other, other ≠ filename → other ≠ f2 →
                d' !! other = disk st !! other)
    ∧ (base.size d' ≤ base.size (disk st))%nat.
Proof.
  intros Hc Ht Hnew. pose proof (target_ne _ _ Hc Ht) as Hne.
  destruct (disk st !! f2) as [old|] eqn:Hold.
  - destruct (N.ltb_spec (size new) (size old)) as [Hlt|Hge]; eexists.
    + split; [by apply (body_replace st filename f2 new old)|].
      split; [rewrite lookup_insert_ne by done; by rewrite lookup_delete_eq|].
      split; [by rewrite lookup_insert_eq|]. split.
      * intros other H1 H2. rewrite lookup_insert_ne by done.
        by rewrite !lookup_delete_ne.
      * pose proof (map_size_ne_0_lookup_2 (disk st) f2 (mk_is_Some _ _ Hold)).
        rewrite map_size_insert, lookup_delete_ne, lookup_delete_eq by done.
        rewrite map_size_delete, lookup_delete_ne, Hnew by done.
        rewrite map_size_delete, Hold. simpl. lia.
    + split; [by apply (body_discard st filename f2 new old)|].
      split; [by rewrite lookup_delete_eq|].
      split; [by rewrite lookup_delete_ne|]. split.
      * intros other H1 H2. by rewrite lookup_delete_ne.
      * rewrite map_size_delete, Hnew. simpl. lia.
  - eexists. split; [by apply (body_free st filename f2 new)|].
    split; [rewrite lookup_insert_ne by done; by rewrite lookup_delete_eq|].
    split; [by rewrite lookup_insert_eq|]. split.
    + intros other H1 H2. rewrite lookup_insert_ne by done.
      by rewrite lookup_delete_ne.
    + pose proof (map_size_ne_0_lookup_2 (disk st) filename
                    (mk_is_Some _ _ Hnew)).
      rewrite map_size_insert, lookup_delete_ne, Hold by done.
      rewrite map_size_delete, Hnew. simpl. lia.
Qed.

Lemma body_other st filename :
  candidate filename = false → body filename st = (st, Ok ()).
Proof. intros Hc. unfold body. by rewrite Hc. Qed.

(** ** The scan *)

(** A scan of distinct names that are all on disk runs to its end. It
    prints the candidates, creates no file, and every name left on disk is
    either an old name that was not a scanned candidate or the target of a
    scanned candidate. *)
Lemma scan_run names :
  ∀ st,
    NoDup names →
    (∀ n, n ∈ names → is_Some (disk st !! n)) →
    ∃ st',
      scan names st = (st', Ok ())
      ∧ stdout st' = stdout st ++ List.filter candidate names
      ∧ (∀ name f, disk st' !! name = Some f →
                   ∃ name0, disk st !! name0 = Some f)
      ∧ (base.size (disk st') ≤ base.size (disk st))%nat
      ∧ (∀ name,
           is_Some (disk st' !! name) →
           (is_Some (disk st !! name)
            ∧ ¬ (name ∈ names ∧ candidate name = true))
           ∨ ∃ n, n ∈ names ∧ candidate n = true ∧ target n = Ok name).
Proof.
  induction names as [|filename rest IH]; intros st Hdup Hall.
  - exists st. split; [done|]. split; [by rewrite app_nil_r|].
    split; [eauto|]. split; [done|]. intros name Hname. left.
    split; [done|]. intros [Hin _]. by apply elem_of_nil in Hin.
  - apply NoDup_cons in Hdup as [Hfresh Hdup].
    destruct (Hall filename) as [new Hnew]; [apply list_elem_of_here|].
    destruct (candidate filename) eqn:Hc.
    + destruct (target_defined _ Hc) as (c1 & c2 & Ht).
      set (f2 := String (Py.lower_char c1) (String (Py.lower_char c2) ".srt"))
        in *.
      destruct (body_candidate st filename f2 new Hc Ht Hnew)
        as (d' & Hbody & Hgone & Hf2 & Hframe & Hsize).
      destruct (IH (State d' (stdout st ++ [filename])) Hdup)
        as (st' & Hscan & Hout & Hfiles & Hsize' & Hnames).
      { intros n Hn. simpl.
        assert (n ≠ filename) by (by intros ->).
        destruct (decide (n = f2)) as [->|Hnf2]; [by rewrite Hf2|].
        rewrite Hframe by done. apply Hall. by apply list_elem_of_further. }
      exists st'. split.
      { cbn [scan]. unfold mbind, M_bind. by rewrite Hbody. }
      split.
      { rewrite Hout. cbn [stdout List.filter]. rewrite Hc.
        by rewrite <- app_assoc. }
      split.
      { intros name f Hf. destruct (Hfiles name f Hf) as [name1 Hname1].
        simpl in Hname1.
        destruct (decide (name1 = f2)) as [->|Hn1].
        - rewrite Hf2 in Hname1. injection Hname1 as <-.
          destruct (disk st !! f2) as [old|] eqn:Hold; [|eauto].
          destruct (size new <? size old)%N; eauto.
        - destruct (decide (name1 = filename)) as [->|Hn2]; [congruence|].
          rewrite Hframe in Hname1 by done. eauto. }
      split; [simpl in Hsize'; lia|].
      intros name Hname.
      destruct (Hnames name Hname) as [[Hthere Hnot]|(n & Hn & Hcn & Htn)].
      * simpl in Hthere.
        destruct (decide (name = filename)) as [->|Hn2].
        { rewrite Hgone in Hthere. by destruct Hthere. }
        destruct (decide (name = f2)) as [->|Hn1].
        { right. exists filename. split; [apply list_elem_of_here|done]. }
        left. rewrite Hframe in Hthere by done. split; [done|].
        intros [[?|Hin]%elem_of_cons Hcand]; [done|]. by apply Hnot.
      * right. exists n. split; [by apply list_elem_of_further|done].
    + destruct (IH st Hdup) as (st' & Hscan & Hout & Hfiles & Hsize' & Hnames).
      { intros n Hn. apply Hall. by apply list_elem_of_further. }
      exists st'. split.
      { cbn [scan]. unfold mbind, M_bind. by rewrite body_other. }
      split; [cbn [List.filter]; by rewrite Hc|].
      split; [done|]. split; [done|].
      intros name Hname.
      destruct (Hnames name Hname) as [[Hthere Hnot]|(n & Hn & Hcn & Htn)].
      * left. split; [done|].
        intros [[->|Hin]%elem_of_cons Hcand]; [congruence|]. by apply Hnot.
      * right. exists n. split; [by apply list_elem_of_further|done].
Qed.

Lemma scan_nothing names st :
  (∀ n, n ∈ names → candidate n = false) → scan names st = (st, Ok ()).
Proof.
  induction names as [|filename rest IH]; intros Hnone; [done|].
  cbn [scan]. unfold mbind, M_bind.
  rewrite body_other by apply Hnone, list_elem_of_here.
  apply IH. intros n Hn. by apply Hnone, list_elem_of_further.
Qed.

(** What [listdir] returns is a listing of the directory. *)
Lemma listdir_listing st :
  listing (disk st) (map_to_list (disk st)).*1.
Proof.
  split; [apply NoDup_fst_map_to_list|].
  intros n. rewrite list_elem_of_fmap. split.
  - intros ([n' f] & -> & Hin). apply elem_of_map_to_list in Hin. by eexists.
  - intros [f Hf]. exists (n, f). split; [done|]. by apply elem_of_map_to_list.
Qed.

(** The folder [Cases.subs], listed in an order of the file system's. *)
Lemma subs_listing :
  listing (disk Cases.subs)
    ["notes.txt"; "4_French.srt"; "3_English.srt"; "2_English.srt"]%string.
Proof.
  split.
  - repeat (apply NoDup_cons; split;
              [intros Hin;
               repeat (apply elem_of_cons in Hin as [Heq|Hin]; [discriminate|]);
               by apply elem_of_nil in Hin|]).
    apply NoDup_nil_2.
  - intros n. split.
    + intros Hin.
      repeat (apply elem_of_cons in Hin as [->|Hin]; [by eexists|]).
      by apply elem_of_nil in Hin.
    + intros [f Hf]. unfold Cases.subs in Hf. cbn [disk] in Hf.
      repeat (apply lookup_insert_Some in Hf as [[<- _]|[_ Hf]];
                [repeat first [apply list_elem_of_here
                              |apply list_elem_of_further]|]).
      apply lookup_singleton_Some in Hf as [<- _].
      repeat first [apply list_elem_of_here|apply list_elem_of_further].
Qed.

(** X1. Whatever the order in which the directory is listed, the scan
    never stops on an error: every listed file is still there when its
    turn comes. It prints the candidates of the listing, in listing order,
    once each. *)
Theorem scan_never_raises (st : state) (names : list string) :
  listing (disk st) names →
  ∃ st',
    scan names st = (st', Ok ())
    ∧ stdout st' = stdout st ++ List.filter candidate names.
Proof.
  intros [Hdup Hnames].
  destruct (scan_run names st Hdup) as (st' & Hscan & Hout & _).
  - intros n Hn. by apply Hnames.
  - by exists st'.
Qed.

Lemma scan_never_raises_witness :
  ∃ st',
    scan ["notes.txt"; "4_French.srt"; "3_English.srt"; "2_English.srt"]%string
         Cases.subs
    = (st', Ok ())
    ∧ stdout st' = ["4_French.srt"; "3_English.srt"; "2_English.srt"]%string.
Proof.
  exact (scan_never_raises Cases.subs _ subs_listing).
Defined.

(** X2. Whatever the order of the listing, the scan creates nothing: every
    file on disk after it was on disk before it (possibly under another
    name), and there are no more files than before. *)
Theorem scan_creates_no_file (st : state) (names : list string) :
  listing (disk st) names →
  ∃ st',
    scan names st = (st', Ok ())
    ∧ (∀ name f, disk st' !! name = Some f →
                 ∃ name0, disk st !! name0 = Some f)
    ∧ (base.size (disk st') ≤ base.size (disk st))%nat.
Proof.
  intros [Hdup Hnames].
  destruct (scan_run names st Hdup) as (st' & Hscan & _ & Hfiles & Hsize & _).
  - intros n Hn. by apply Hnames.
  - by exists st'.
Qed.

Lemma scan_creates_no_file_witness :
  ∃ st',
    scan ["notes.txt"; "4_French.srt"; "3_English.srt"; "2_English.srt"]%string
         Cases.subs
    = (st', Ok ())
    ∧ (∀ name f, disk st' !! name = Some f →
                 ∃ name0, disk Cases.subs !! name0 = Some f)
    ∧ (base.size (disk st') ≤ base.size (disk Cases.subs))%nat.
Proof.
  exact (scan_creates_no_file Cases.subs _ subs_listing).
Defined.

(** X3. A second run changes nothing, whatever the order of either
    listing, provided no target name is itself a candidate (no code with
    an underscore in it): after the first scan no candidate is left, so a
    scan of any listing of what is left neither renames, removes nor
    prints. *)
Theorem second_scan_is_idle (st : state) (names : list string) :
  listing (disk st) names →
  Forall (λ n, ∀ f2, candidate n = true → target n = Ok f2 →
                     candidate f2 = false)
         names →
  ∃ st',
    scan names st = (st', Ok ())
    ∧ (∀ n, is_Some (disk st' !! n) → candidate n = false)
    ∧ ∀ names', listing (disk st') names' → scan names' st' = (st', Ok ()).
Proof.
  intros [Hdup Hnames] Hstable.
  destruct (scan_run names st Hdup) as (st' & Hscan & _ & _ & _ & Hleft).
  { intros n Hn. by apply Hnames. }
  assert (∀ n, is_Some (disk st' !! n) → candidate n = false) as Hnone.
  { intros n Hn.
    destruct (Hleft n Hn) as [[Hthere Hnot]|(n0 & Hn0 & Hc0 & Ht0)].
    - destruct (candidate n) eqn:Hc; [|done]. destruct Hnot.
      split; [|done]. by apply Hnames.
    - rewrite Forall_forall in Hstable. by apply (Hstable n0). }
  exists st'. split; [done|]. split; [done|].
  intros names' [_ Hnames']. apply scan_nothing.
  intros n Hn. by apply Hnone, Hnames'.
Qed.

Lemma second_scan_is_idle_witness :
  ∃ st',
    scan ["notes.txt"; "4_French.srt"; "3_English.srt"; "2_English.srt"]%string
         Cases.subs
    = (st', Ok ())
    ∧ (∀ n, is_Some (disk st' !! n) → candidate n = false)
    ∧ ∀ names', listing (disk st') names' → scan names' st' = (st', Ok ()).
Proof.
  apply (second_scan_is_idle Cases.subs _ subs_listing).
  repeat constructor; intros f2 Hc Ht;
    first [ by vm_compute in Hc
          | vm_compute in Ht; injection Ht as <-; reflexivity ].
Defined.

(** ** Errors and what is left alone *)

Lemma body_missing st filename :
  candidate filename = true →
  disk st !! filename = None →
  body filename st
  = (State (disk st) (stdout st ++ [filename]), Raise FileNotFoundError).
Proof.
  intros Hc Hgone. destruct (target_defined _ Hc) as (c1 & c2 & Ht).
  unfold body, print, isfile, getsize, remove, rename, modify, get, lift,
    raise, set_disk, mbind, M_bind, mret, M_ret; simpl.
  rewrite Hc, Ht; simpl.
  destruct (disk st !! String _ _) as [old|] eqn:Hold; simpl.
  - rewrite ?Hold; simpl. by rewrite Hgone.
  - by rewrite Hgone.
Qed.

(** X4. A listed candidate that is no longer on disk stops the scan there:
    its name is printed, [FileNotFoundError] is raised, nothing on disk
    has changed and the names after it are not visited. *)
Theorem vanished_file_stops_the_scan (st : state) (filename : string)
    (rest : list string) :
  candidate filename = true →
  disk st !! filename = None →
  scan (filename :: rest) st
  = (State (disk st) (stdout st ++ [filename]), Raise FileNotFoundError).
Proof.
  intros Hc Hgone. cbn [scan]. unfold mbind, M_bind.
  by rewrite body_missing.
Qed.

Lemma vanished_file_stops_the_scan_witness :
  scan ("5_German.srt"%string :: ["2_English.srt"%string]) Cases.subs
  = (State (disk Cases.subs) (stdout Cases.subs ++ ["5_German.srt"%string]),
     Raise FileNotFoundError).
Proof.
  apply (vanished_file_stops_the_scan Cases.subs "5_German.srt"
           ["2_English.srt"%string]); reflexivity.
Defined.

(** X5. One iteration touches two names at most, the scanned one and its
    target: every other name keeps its file, whether the iteration ends
    well or raises. *)
Theorem body_leaves_other_names (st : state) (filename other : string) :
  other ≠ filename →
  target filename ≠ Ok other →
  disk (body filename st).1 !! other = disk st !! other.
Proof.
  intros Hother Htarget. destruct (candidate filename) eqn:Hc.
  - destruct (target_defined _ Hc) as (c1 & c2 & Ht).
    destruct (disk st !! filename) as [new|] eqn:Hnew.
    + destruct (body_candidate st filename _ new Hc Ht Hnew)
        as (d' & -> & _ & _ & Hframe & _).
      simpl. apply Hframe; [done|]. intros ->. by rewrite Ht in Htarget.
    + by rewrite body_missing.
  - by rewrite body_other.
Qed.

Lemma body_leaves_other_names_witness :
  disk (body "3_English.srt" Cases.subs).1 !! "4_French.srt"%string
  = disk Cases.subs !! "4_French.srt"%string.
Proof.
  apply (body_leaves_other_names Cases.subs "3_English.srt" "4_French.srt");
    [discriminate|]. vm_compute. discriminate.
Defined.

(** ** Two files with one code *)

(** X6. Two candidates with the same, free, target name, scanned one after the
    other: the first takes the name, the second replaces it only if it is
    strictly smaller. One file is left under the target name, the smaller
    one, and on equal sizes the one scanned first; both old names are
    gone. *)
Theorem two_files_one_code (st : state) (first second f2 : string)
    (f1 f2' : file) :
  candidate first = true → candidate second = true →
  first ≠ second →
  target first = Ok f2 → target second = Ok f2 →
  disk st !! first = Some f1 → disk st !! second = Some f2' →
  disk st !! f2 = None →
  ∃ st',
    scan [first; second] st = (st', Ok ())
    ∧ disk st' !! f2 = Some (if (size f2' <? size f1)%N then f2' else f1)
    ∧ disk st' !! first = None
    ∧ disk st' !! second = None
    ∧ stdout st' = stdout st ++ [first; second].
Proof.
  intros Hc1 Hc2 Hne Ht1 Ht2 Hf1 Hf2 Hfree.
  pose proof (target_ne _ _ Hc1 Ht1) as Hne1.
  pose proof (target_ne _ _ Hc2 Ht2) as Hne2.
  destruct (body_candidate st first f2 f1 Hc1 Ht1 Hf1)
    as (d1 & Hbody1 & Hgone1 & Htaken & Hframe1 & _).
  rewrite Hfree in Htaken.
  assert (d1 !! second = Some f2') as Hsecond.
  { rewrite Hframe1 by done. done. }
  destruct (body_candidate (State d1 (stdout st ++ [first])) second f2 f2'
              Hc2 Ht2 Hsecond)
    as (d2 & Hbody2 & Hgone2 & Hkept & Hframe2 & _).
  simpl in Hkept. rewrite Htaken in Hkept.
  exists (State d2 ((stdout st ++ [first]) ++ [second])). split.
  { cbn [scan]. unfold mbind, M_bind. rewrite Hbody1, Hbody2. done. }
  simpl. split; [done|]. split.
  { rewrite Hframe2 by done. done. }
  split; [done|]. by rewrite <- app_assoc.
Qed.

Lemma two_files_one_code_witness :
  ∃ st',
    scan ["2_English.srt"; "3_English.srt"]%string Cases.subs = (st', Ok ())
    ∧ disk st' !! "en.srt"%string
      = Some (if (size (File 2 1200) <? size (File 1 900))%N
              then File 2 1200 else File 1 900)
    ∧ disk st' !! "2_English.srt"%string = None
    ∧ disk st' !! "3_English.srt"%string = None
    ∧ stdout st'
      = stdout Cases.subs ++ ["2_English.srt"; "3_English.srt"]%string.
Proof.
  apply (two_files_one_code Cases.subs "2_English.srt" "3_English.srt"
           "en.srt" (File 1 900) (File 2 1200));
    first [reflexivity | discriminate].
Defined.

(** ** Target names *)

Lemma lowercased_not_capital c :
  Letters.is_capital (Letters.lowercased c) = false.
Proof. by destruct c as [[] [] [] [] [] [] [] []]. Qed.

(** X7. The target of an ASCII candidate is always defined ([index] cannot
    raise on it), is six ASCII characters long, ends in [.srt], holds no
    capital letter, and is never the candidate's own name, so a rename
    never renames a file onto itself. *)
Theorem target_well_formed (filename : string) :
  Py.isascii filename = true →
  candidate filename = true →
  ∃ f2,
    target filename = Ok f2
    ∧ String.length f2 = 6%nat
    ∧ Py.last_chars 4 f2 = ".srt"%string
    ∧ Py.isascii f2 = true
    ∧ Forall (λ c, Letters.is_capital c = false) (list_ascii_of_string f2)
    ∧ f2 ≠ filename.
Proof.
  intros Hascii Hc.
  destruct (candidate_shape _ Hc)
    as (pre & c1 & c2 & rest & Hfile & _ & Hidx & _).
  rewrite Hfile in Hidx. pose proof (target_shape _ _ _ _ Hidx) as Ht.
  rewrite <- Hfile in Ht.
  eexists. split; [exact Ht|]. split; [done|]. split; [done|].
  split; [|split; [|by apply target_ne]].
  - rewrite Hfile, isascii_app in Hascii.
    apply andb_true_iff in Hascii as [_ Hascii]. cbn [Py.isascii] in Hascii.
    apply andb_true_iff in Hascii as [_ Hascii].
    apply andb_true_iff in Hascii as [H1 Hascii].
    apply andb_true_iff in Hascii as [H2 _].
    rewrite !lower_char_lowercased. simpl.
    by rewrite (lowercased_ascii _ H1), (lowercased_ascii _ H2).
  - rewrite !lower_char_lowercased. cbn [list_ascii_of_string].
    repeat (constructor; [first [apply lowercased_not_capital|done]|]).
    constructor.
Qed.

Lemma target_well_formed_witness :
  ∃ f2,
    f2 = "en.srt"%string
    ∧ target "3_English.srt" = Ok f2
    ∧ String.length f2 = 6%nat
    ∧ Py.last_chars 4 f2 = ".srt"%string
    ∧ Py.isascii f2 = true
    ∧ Forall (λ c, Letters.is_capital c = false) (list_ascii_of_string f2)
    ∧ f2 ≠ "3_English.srt"%string.
Proof.
  destruct (target_well_formed "3_English.srt" eq_refl eq_refl)
    as (f2 & Ht & Hrest).
  exists f2. split; [|by split].
  vm_compute in Ht. by injection Ht.
Defined.

End CleanSRTMore.


(** * Names and suffixes *)

Module PathFacts.

Import GenerateMtgPdf.

#[local] Arguments String.append !_ _ / : simpl nomatch.

Lemma rfind_negative c s : (Py.rfind c s < 0)%Z → Py.count c s = 0.
Proof.
  induction s as [|a s IH]; simpl; [done|].
  destruct (Z.leb_spec 0 (Py.rfind c s)); [lia|].
  destruct (Ascii.eqb a c); [lia|]. intros _. by apply IH.
Qed.

Lemma rfind_absent c s : Py.count c s = 0 → Py.rfind c s = (-1)%Z.
Proof.
  induction s as [|a s IH]; simpl; [done|].
  destruct (Ascii.eqb a c); [lia|]. intros Hs. rewrite IH by done. done.
Qed.

Lemma rfind_last c a b :
  Py.count c b = 0 →
  Py.rfind c (a +:+ String c b) = Z.of_nat (String.length a).
Proof.
  intros Hb. induction a as [|x a IH]; simpl.
  - rewrite rfind_absent by done. simpl. by rewrite Ascii.eqb_refl.
  - rewrite IH. destruct (Z.leb_spec 0 (Z.of_nat (String.length a))); lia.
Qed.

Lemma rfind_found c s :
  (0 ≤ Py.rfind c s)%Z →
  ∃ a b, s = a +:+ String c b ∧ Py.count c b = 0.
Proof.
  induction s as [|x s IH]; simpl; [lia|].
  destruct (Z.leb_spec 0 (Py.rfind c s)) as [Hr|Hr].
  - intros _. destruct (IH Hr) as (a & b & -> & Hb).
    by exists (String x a), b.
  - destruct (Ascii.eqb_spec x c) as [->|_]; [|lia]. intros _.
    exists ""%string, s. split; [done|]. by apply rfind_negative.
Qed.

Lemma eqb_lowercased_dot c :
  Ascii.eqb (Letters.lowercased c) "." = Ascii.eqb c ".".
Proof. by destruct c as [[] [] [] [] [] [] [] []]. Qed.

Lemma count_dot_lowercased s :
  Py.count "." (Letters.lowercased_string s) = Py.count "." s.
Proof.
  induction s as [|a s IH]; simpl; [done|].
  by rewrite eqb_lowercased_dot, IH.
Qed.

Lemma length_lowercased s :
  String.length (Letters.lowercased_string s) = String.length s.
Proof. induction s as [|a s IH]; simpl; [done|]. by rewrite IH. Qed.

(** The suffix of a name that ends in a dot and a dot-free, non-empty
    rest, after a non-empty stem. *)
Lemma suffix_of_name dir stem b :
  stem ≠ ""%string → b ≠ ""%string → Py.count "." b = 0 →
  suffix (dir ++ [stem +:+ String "." b]) = String "."%char b.
Proof.
  intros Hstem Hb Hdot. unfold suffix, name.
  rewrite last_snoc. cbn [from_option id].
  rewrite rfind_last by done.
  rewrite CleanSRTFacts.length_app. cbn [String.length].
  assert (0 < String.length stem) by (destruct stem; [done|simpl; lia]).
  assert (0 < String.length b) by (destruct b; [done|simpl; lia]).
  destruct (Z.ltb_spec 0 (Z.of_nat (String.length stem))); [|lia].
  destruct (Z.ltb_spec (Z.of_nat (String.length stem))
              (Z.of_nat (String.length stem + S (String.length b)) - 1));
    [|lia].
  cbn [andb]. rewrite Nat2Z.id.
  replace (String.length stem) with (String.length stem + 0) at 1 by lia.
  rewrite CleanSRTFacts.substring_skip.
  apply CleanSRTFacts.substring_whole. simpl. lia.
Qed.

(** A path with a suffix ends in a name made of a non-empty stem and
    that suffix, which starts with the last dot of the name. *)
Lemma suffix_shape p :
  suffix p ≠ ""%string →
  ∃ dir stem b,
    p = dir ++ [stem +:+ String "." b]
    ∧ stem ≠ ""%string ∧ b ≠ ""%string ∧ Py.count "." b = 0.
Proof.
  unfold suffix, name. intros Hsuffix.
  destruct (last p) as [n|] eqn:Hlast; [|done].
  apply last_Some in Hlast as [dir ->]. cbn [from_option id] in Hsuffix.
  destruct (Z.ltb_spec 0 (Py.rfind "." n)) as [Hpos|]; [|done].
  destruct (Z.ltb_spec (Py.rfind "." n) (Z.of_nat (String.length n) - 1))
    as [Hlt|]; [|done].
  destruct (rfind_found "." n) as (a & b & -> & Hb); [lia|].
  rewrite rfind_last in Hpos, Hlt by done.
  rewrite CleanSRTFacts.length_app in Hlt. cbn [String.length] in Hlt.
  exists dir, a, b. split; [done|].
  split; [intros ->; simpl in Hpos; lia|].
  split; [intros ->; simpl in Hlt; lia|done].
Qed.

(** The files [find_image_files] keeps, by their names: a non-empty stem
    followed by [.png], [.jpg] or [.jpeg] in any letter case. *)
Lemma image_suffix p :
  Py.lower (suffix p) ∈ SUPPORTED_EXTENSIONS
  ↔ ∃ dir stem ext,
      p = dir ++ [stem +:+ ext]
      ∧ stem ≠ ""%string
      ∧ Letters.lowercased_string ext ∈ [".png"; ".jpg"; ".jpeg"]%string.
Proof.
  split.
  - intros Hext.
    destruct (suffix_shape p) as (dir & stem & b & Hp & Hstem & Hb & Hdot).
    { intros Hnone. rewrite Hnone in Hext. simpl in Hext.
      repeat (apply elem_of_cons in Hext as [Hext|Hext]; [discriminate|]).
      by apply elem_of_nil in Hext. }
    exists dir, stem, (String "." b). split; [done|]. split; [done|].
    rewrite Hp, suffix_of_name in Hext by done.
    by rewrite <- CleanSRTFacts.lower_lowercased.
  - intros (dir & stem & ext & -> & Hstem & Hext).
    assert (∃ b, ext = String "." b ∧ b ≠ ""%string ∧ Py.count "." b = 0)
      as (b & -> & Hb & Hdot).
    { pose proof (count_dot_lowercased ext) as Hcount.
      pose proof (length_lowercased ext) as Hlen.
      destruct ext as [|c0 b].
      { simpl in Hext.
        repeat (apply elem_of_cons in Hext as [Hext|Hext]; [discriminate|]).
        by apply elem_of_nil in Hext. }
      exists b. simpl in Hext, Hcount, Hlen.
      assert (Ascii.eqb (Letters.lowercased c0) "." = true
              ∧ Py.count "." (Letters.lowercased_string b) = 0
              ∧ 0 < String.length (Letters.lowercased_string b))
        as (Hc0 & Hb0 & Hlen0).
      { repeat (apply elem_of_cons in Hext as [Hext|Hext];
                  [injection Hext as -> ->; simpl; by auto with lia|]).
        by apply elem_of_nil in Hext. }
      rewrite eqb_lowercased_dot in Hc0. apply Ascii.eqb_eq in Hc0 as ->.
      split; [done|]. split.
      - intros ->. simpl in Hlen0. lia.
      - by rewrite <- count_dot_lowercased. }
    rewrite suffix_of_name by done.
    by rewrite CleanSRTFacts.lower_lowercased.
Qed.

End PathFacts.

(** * More about [generate_mtg_pdf.py] *)

Module GenerateMtgPdfMore.

Import Num GenerateMtgPdf Sheet GenerateMtgPdfFacts PathFacts.
#[local] Open Scope Z_scope.

(** ** Discovery *)

Lemma compare_refl (a : string) : (a ?= a)%string = Eq.
Proof.
  pose proof (String.compare_antisym a a) as H.
  by destruct (a ?= a)%string.
Qed.

Lemma compare_lt_trans (a b c : string) :
  (a ?= b)%string = Lt → (b ?= c)%string = Lt → (a ?= c)%string = Lt.
Proof.
  intros Hab Hbc.
  assert (String.le a c) as Hac.
  { transitivity b; unfold String.le, String.leb; [by rewrite Hab|by rewrite Hbc]. }
  unfold String.le, String.leb in Hac.
  destruct (a ?= c)%string eqn:Hcmp; [|done|done].
  apply String.compare_eq_iff in Hcmp as ->.
  rewrite String.compare_antisym, Hbc in Hab. done.
Qed.

Lemma path_leb_total p q : path_leb p q = false → path_leb q p = true.
Proof.
  revert q. induction p as [|a p IH]; intros [|b q]; simpl; try done.
  rewrite (String.compare_antisym b a).
  destruct (a ?= b)%string; simpl; auto; done.
Qed.

Lemma path_leb_trans p q r :
  path_leb p q = true → path_leb q r = true → path_leb p r = true.
Proof.
  revert q r. induction p as [|a p IH]; intros [|b q] [|c r]; simpl;
    try done.
  destruct (a ?= b)%string eqn:Hab; [|..|done].
  - apply String.compare_eq_iff in Hab as ->.
    destruct (b ?= c)%string; [|done..]. apply IH.
  - destruct (b ?= c)%string eqn:Hbc; [|..|done].
    + apply String.compare_eq_iff in Hbc as ->. by rewrite Hab.
    + by rewrite (compare_lt_trans a b c).
Qed.

Lemma insert_sorted_perm p l : insert_sorted p l ≡ₚ p :: l.
Proof.
  induction l as [|q l IH]; simpl; [done|].
  destruct (path_leb p q); [done|]. rewrite IH. apply Permutation_swap.
Qed.

Lemma sorted_perm l : sorted l ≡ₚ l.
Proof.
  induction l as [|p l IH]; simpl; [done|].
  by rewrite insert_sorted_perm, IH.
Qed.

Lemma insert_sorted_sorted p l :
  StronglySorted (λ p q, path_leb p q = true) l →
  StronglySorted (λ p q, path_leb p q = true) (insert_sorted p l).
Proof.
  induction 1 as [|q l Hl IH Hq]; simpl.
  - repeat constructor.
  - destruct (path_leb p q) eqn:Hpq.
    + constructor; [by constructor|]. constructor; [done|].
      eapply Forall_impl; [exact Hq|]. intros r Hr. simpl in *.
      by eapply path_leb_trans.
    + constructor; [done|].
      rewrite (insert_sorted_perm p l). constructor; [|done].
      by apply path_leb_total.
Qed.

Lemma sorted_sorted l :
  StronglySorted (λ p q, path_leb p q = true) (sorted l).
Proof.
  induction l as [|p l IH]; simpl; [constructor|].
  by apply insert_sorted_sorted.
Qed.

Lemma path_leb_le p q : path_leb p q = true → Paths.le p q.
Proof.
  revert q. induction p as [|a p IH]; intros [|b q]; simpl;
    [intros _; apply Paths.le_nil..|done|].
  destruct (a ?= b)%string eqn:Hab; [|intros _; by apply Paths.le_lt|done].
  apply String.compare_eq_iff in Hab as ->. intros Hpq.
  apply Paths.le_eq. by apply IH.
Qed.

Lemma sorted_le l : StronglySorted Paths.le (sorted l).
Proof.
  pose proof (sorted_sorted l) as Hsorted.
  induction Hsorted as [|p l' Hl IH Hp]; constructor; [done|].
  eapply Forall_impl; [exact Hp|]. intros q. apply path_leb_le.
Qed.

(** X8. On a directory [find_image_files] returns the regular files whose
    name is a non-empty stem followed by [.png], [.jpg] or [.jpeg] in any
    letter case, and no others, in ascending path order; it logs how many
    there are. *)
Theorem find_image_files_lists_the_images (w : world) (source_dir : string)
    (rglob : list entry) (σ : proc) :
  stat w source_dir = Some (Directory rglob) →
  ∃ found,
    find_image_files w source_dir σ
    = (Proc (log σ ++ [(INFO, MsgFound (length found) source_dir)])
            (written σ) (incomplete σ),
       Ok found)
    ∧ StronglySorted Paths.le found
    ∧ ∀ p,
        p ∈ found
        ↔ Entry p true ∈ rglob
          ∧ ∃ dir stem ext,
              p = dir ++ [stem +:+ ext]
              ∧ stem ≠ ""%string
              ∧ Letters.lowercased_string ext
                ∈ [".png"; ".jpg"; ".jpeg"]%string.
Proof.
  intros Hstat. unfold find_image_files. rewrite Hstat.
  eexists. split.
  { unfold logger, modify, mbind, M_bind, mret, M_ret. simpl.
    rewrite <- (Permutation_length (sorted_perm _)) at 1. reflexivity. }
  split.
  { apply sorted_le. }
  intros p. rewrite sorted_perm, list_elem_of_fmap, <- image_suffix. split.
  - intros ([p' []] & -> & [[Hfile Hext] He]%list_elem_of_filter);
      simpl in *; done.
  - intros [He Hext]. exists (Entry p true). split; [done|].
    by apply list_elem_of_filter.
Qed.

(** Of the seven entries of [Cases.mixed_dir], three are kept: not the
    directories, the text file, or the dot file [.png], which has no
    stem. *)
Lemma find_image_files_lists_the_images_witness :
  ∃ found,
    found = [ ["images"; "Z.jpg"]; ["images"; "a.jpeg"];
              ["images"; "sets"; "b.PNG"] ]%string
    ∧ find_image_files Cases.mixed "./images" Examples.fresh
      = (Proc [(INFO, MsgFound 3 "./images")] ∅ ∅, Ok found)
    ∧ StronglySorted Paths.le found
    ∧ ∀ p,
        p ∈ found
        ↔ Entry p true ∈ Cases.mixed_dir
          ∧ ∃ dir stem ext,
              p = dir ++ [stem +:+ ext]
              ∧ stem ≠ ""%string
              ∧ Letters.lowercased_string ext
                ∈ [".png"; ".jpg"; ".jpeg"]%string.
Proof.
  destruct (find_image_files_lists_the_images Cases.mixed "./images"
              Cases.mixed_dir Examples.fresh eq_refl)
    as (found & Hrun & Hsorted & Hfound).
  exists found.
  assert (found = [ ["images"; "Z.jpg"]; ["images"; "a.jpeg"];
                    ["images"; "sets"; "b.PNG"] ]%string) as Heq.
  { vm_compute in Hrun. by injection Hrun. }
  split; [exact Heq|]. split; [|by split].
  rewrite Hrun, Heq. reflexivity.
Defined.
Lemma filter_none {A} (P : A → Prop) `{!∀ x, Decision (P x)} (l : list A) :
  (∀ x, x ∈ l → ¬ P x) → filter P l = [].
Proof.
  induction l as [|x l IH]; intros Hnone; [done|].
  rewrite filter_cons_False by apply Hnone, list_elem_of_here.
  apply IH. intros y Hy. by apply Hnone, list_elem_of_further.
Qed.

(** X9. A source directory without a single image file is not an error:
    [main] logs the count of 0 and a warning, computes no layout, writes
    nothing, and ends with status 0. *)
Theorem no_image_is_not_an_error (w : world) (a : args)
    (rglob : list entry) (σ : proc) :
  stat w (source_dir a) = Some (Directory rglob) →
  (∀ e, e ∈ rglob → e_is_file e = true →
        Py.lower (suffix (e_path e)) ∉ SUPPORTED_EXTENSIONS) →
  main w a σ
  = (Proc (log σ ++ [(INFO, MsgStart);
                     (INFO, MsgFound 0 (source_dir a));
                     (WARNING, MsgNoImageFound)])
          (written σ) (incomplete σ),
     0).
Proof.
  intros Hstat Hnone.
  unfold main, main_try, find_image_files. rewrite Hstat.
  rewrite filter_none by (intros e He [Hfile Hext]; by apply (Hnone e)).
  unfold logger, modify, mbind, M_bind, mret, M_ret. simpl.
  by rewrite <- !app_assoc.
Qed.

Lemma no_image_is_not_an_error_witness :
  main Cases.no_images default_args Examples.fresh
  = (Proc (log Examples.fresh
           ++ [(INFO, MsgStart);
               (INFO, MsgFound 0 (source_dir default_args));
               (WARNING, MsgNoImageFound)])
          (written Examples.fresh) (incomplete Examples.fresh),
     0).
Proof.
  apply (no_image_is_not_an_error Cases.no_images default_args
           [Entry ["images"; "readme.txt"]%string true] Examples.fresh).
  - reflexivity.
  - intros e ->%list_elem_of_singleton _. vm_compute.
    intros H. repeat (apply elem_of_cons in H as [H|H]; [discriminate|]).
    by apply elem_of_nil in H.
Defined.

(** ** Preview mode *)

(** X10. In preview mode the document is the first page of the full document
    and nothing more: exactly one page, drawn as in a full run. *)
Theorem preview_is_the_first_page (w : world) (enable_cut_marks : bool)
    (images : list Path) (output_path : string) (σ : proc) :
  images ≠ [] →
  (∀ k, png_save_ok w k = true) →
  canvas_save_ok w = true →
  ∃ σp σf preview_doc full_doc,
    generate_pdf w enable_cut_marks images output_path true σ = (σp, Ok ())
    ∧ generate_pdf w enable_cut_marks images output_path false σ
      = (σf, Ok ())
    ∧ written σp !! output_path = Some preview_doc
    ∧ written σf !! output_path = Some full_doc
    ∧ pages preview_doc = take 1 (pages full_doc)
    ∧ length (pages preview_doc) = 1%nat.
Proof.
  intros Hne Hpng Hsave. eexists _, _, _, _.
  split; [by apply generate_pdf_run|].
  split; [by apply generate_pdf_run|]. cbn [written visited].
  split; [by rewrite lookup_insert_eq|].
  split; [by rewrite lookup_insert_eq|]. cbn [pages].
  split; [by rewrite fmap_take|].
  rewrite length_fmap, length_take, length_page_starts.
  assert (0 < length images)%nat by (destruct images; simpl; [done|lia]).
  assert (1 ≤ (length images + 8) / 9)%nat; [|lia].
  apply Nat.div_le_lower_bound; lia.
Qed.

Lemma preview_is_the_first_page_witness :
  ∃ σp σf preview_doc full_doc,
    generate_pdf Examples.friendly false Examples.ten_images "out.pdf" true
                 Examples.fresh = (σp, Ok ())
    ∧ generate_pdf Examples.friendly false Examples.ten_images "out.pdf"
                   false Examples.fresh
      = (σf, Ok ())
    ∧ written σp !! "out.pdf"%string = Some preview_doc
    ∧ written σf !! "out.pdf"%string = Some full_doc
    ∧ pages preview_doc = take 1 (pages full_doc)
    ∧ length (pages preview_doc) = 1%nat.
Proof.
  apply (preview_is_the_first_page Examples.friendly false
           Examples.ten_images "out.pdf" Examples.fresh);
    [discriminate | reflexivity | reflexivity].
Defined.

(** ** What a run writes, in any world *)

Section any_world.

Variable w : world.
Variable enable_cut_marks : bool.
Variables (cols rows : Z) (start_x start_y : float).

#[local] Abbreviation place_card_ :=
  (place_card w enable_cut_marks cols rows start_x start_y).
#[local] Abbreviation place_cards_ :=
  (place_cards w enable_cut_marks cols rows start_x start_y).
#[local] Abbreviation draw_pages_ :=
  (draw_pages w enable_cut_marks cols rows start_x start_y).

#[local] Abbreviation loop_exn := (Failure.loop_exn cols).

(** One card: no document is written, the canvas keeps its file name, and
    the only way to fail is the temporary file (or a grid without
    columns). *)
Lemma place_card_frame i l j image_path σ :
  written (place_card_ i l j image_path σ).1 = written σ
  ∧ incomplete (place_card_ i l j image_path σ).1 = incomplete σ
  ∧ (∀ l', (place_card_ i l j image_path σ).2 = Ok l' →
           filename (c l') = filename (c l))
  ∧ (∀ ex, (place_card_ i l j image_path σ).2 = Raise ex → loop_exn ex).
Proof.
  unfold GenerateMtgPdf.place_card, Py.mod_, Py.floordiv, lift,
    resize_image_to_card, logger, modify, raise, mbind, M_bind, mret, M_ret,
    Failure.loop_exn.
  destruct (Z.eqb_spec cols 0) as [Hcols|Hcols]; simpl.
  { do 3 (split; [done|]). intros ex [= <-]. by right. }
  destruct (pil_ok w image_path); simpl;
    [|do 2 (split; [done|]); split; [by intros ? [= <-]|done]].
  destruct (png_save_ok w (i + j)); simpl.
  - destruct (draw_image_ok w (i + j)); simpl;
      [|do 2 (split; [done|]); split; [by intros ? [= <-]|done]].
    do 2 (split; [done|]). split; [|done]. intros l' [= <-]. simpl.
    destruct enable_cut_marks; [|done]. by rewrite draw_cut_marks_ops.
  - do 3 (split; [done|]). intros ex [= <-]. by left.
Qed.

Lemma place_cards_frame i (jps : list (Z * Path)) :
  ∀ l σ,
    written (place_cards_ i l jps σ).1 = written σ
    ∧ incomplete (place_cards_ i l jps σ).1 = incomplete σ
    ∧ (∀ l', (place_cards_ i l jps σ).2 = Ok l' →
             filename (c l') = filename (c l))
    ∧ (∀ ex, (place_cards_ i l jps σ).2 = Raise ex → loop_exn ex).
Proof.
  induction jps as [|[j image_path] jps IH]; intros l σ;
    [do 2 (split; [done|]); split; [by intros ? [= <-]|done]|].
  cbn [GenerateMtgPdf.place_cards].
  unfold mbind at 1 2 3 4, M_bind at 1 2 3 4.
  destruct (place_card_frame i l j image_path σ) as (Hw & Hi & Hf & He).
  destruct (place_card_ i l j image_path σ) as [σ1 [l1|ex]]; simpl in *.
  - destruct (IH l1 σ1) as (Hw' & Hi' & Hf' & He').
    split; [congruence|]. split; [congruence|]. split; [|done].
    intros l' Hl'. rewrite (Hf' l' Hl'). by apply Hf.
  - do 3 (split; [done|]). intros ex' [= <-]. by apply He.
Qed.

Lemma draw_pages_frame images cards_per_page preview_only starts :
  ∀ l σ,
    written (draw_pages_ images cards_per_page preview_only l starts σ).1
    = written σ
    ∧ incomplete
        (draw_pages_ images cards_per_page preview_only l starts σ).1
      = incomplete σ
    ∧ (∀ l',
         (draw_pages_ images cards_per_page preview_only l starts σ).2 = Ok l' →
         filename (c l') = filename (c l))
    ∧ (∀ ex,
         (draw_pages_ images cards_per_page preview_only l starts σ).2
         = Raise ex →
         loop_exn ex).
Proof.
  induction starts as [|i starts IH]; intros l σ;
    [do 2 (split; [done|]); split; [by intros ? [= <-]|done]|].
  cbn [GenerateMtgPdf.draw_pages].
  destruct (preview_only && (1 <? current_page l));
    [do 2 (split; [done|]); split; [by intros ? [= <-]|done]|].
  unfold mbind at 1 3 5 7, M_bind at 1 3 5 7, logger at 1 2 3 4,
    modify at 1 2 3 4.
  unfold mbind at 1 2 3 4, M_bind at 1 2 3 4. cbv beta.
  destruct (place_cards_frame i
              (Py.enumerate (Py.list_slice images i (i + cards_per_page)))
              l (Proc (log σ ++ [(INFO, MsgPage (current_page l))])
                      (written σ) (incomplete σ)))
    as (Hw & Hi & Hf & He).
  destruct (place_cards_ i l _ _) as [σ1 [l1|ex]]; simpl in *.
  - destruct (IH (Locals (showPage (c l1)) (processed_images l1)
                         (current_page l1 + 1)) σ1)
      as (Hw' & Hi' & Hf' & He').
    split; [congruence|]. split; [congruence|]. split; [|done].
    intros l' Hl'. rewrite (Hf' l' Hl'). simpl. by apply Hf.
  - do 3 (split; [done|]). intros ex' [= <-]. by apply He.
Qed.

End any_world.




(** ** A temporary image that cannot be written *)

Section temporary_file.

Variable w : world.
Variable enable_cut_marks : bool.
Variables (cols rows : Z) (start_x start_y : float).
Hypothesis cols_nonzero : cols ≠ 0.

#[local] Abbreviation place_card' :=
  (place_card w enable_cut_marks cols rows start_x start_y).
#[local] Abbreviation place_cards' :=
  (place_cards w enable_cut_marks cols rows start_x start_y).
#[local] Abbreviation draw_pages' :=
  (draw_pages w enable_cut_marks cols rows start_x start_y).

Lemma place_card_unwritable i l j image_path σ :
  pil_ok w image_path = true →
  png_save_ok w (i + j) = false →
  (place_card' i l j image_path σ).2 = Raise OSError.
Proof.
  intros Hpil Hpng.
  unfold GenerateMtgPdf.place_card, Py.mod_, Py.floordiv, lift,
    resize_image_to_card, logger, modify, raise, mbind, M_bind, mret, M_ret.
  apply Z.eqb_neq in cols_nonzero. rewrite cols_nonzero. simpl.
  rewrite Hpil. simpl. by rewrite Hpng.
Qed.

Lemma place_cards_unwritable i (jps : list (Z * Path)) j image_path :
  (j, image_path) ∈ jps →
  pil_ok w image_path = true →
  png_save_ok w (i + j) = false →
  ∀ l σ, (place_cards' i l jps σ).2 = Raise OSError.
Proof.
  intros Hin Hpil Hpng.
  induction jps as [|[j0 p0] jps IH]; intros l σ;
    [by apply elem_of_nil in Hin|].
  cbn [GenerateMtgPdf.place_cards]. unfold mbind, M_bind.
  destruct (place_card_frame w enable_cut_marks cols rows start_x start_y
              i l j0 p0 σ) as (_ & _ & _ & He).
  apply elem_of_cons in Hin as [[= <- <-]|Hin].
  - pose proof (place_card_unwritable i l j image_path σ Hpil Hpng) as Hbad.
    destruct (place_card' i l j image_path σ) as [σ1 [l1|ex]]; simpl in *;
      congruence.
  - destruct (place_card' i l j0 p0 σ) as [σ1 [l1|ex]]; simpl in *.
    + by apply IH.
    + destruct (He ex eq_refl) as [->|[? _]]; done.
Qed.

Lemma draw_pages_unwritable images cards_per_page starts i j image_path :
  i ∈ starts →
  (j, image_path) ∈ batch images cards_per_page i →
  pil_ok w image_path = true →
  png_save_ok w (i + j) = false →
  ∀ l σ,
    (draw_pages' images cards_per_page false l starts σ).2 = Raise OSError.
Proof.
  intros Hi Hin Hpil Hpng.
  induction starts as [|i0 starts IH]; intros l σ;
    [by apply elem_of_nil in Hi|].
  cbn [GenerateMtgPdf.draw_pages andb].
  unfold mbind at 1, M_bind at 1, logger at 1, modify at 1.
  unfold mbind at 1, M_bind at 1. cbv beta.
  destruct (place_cards_frame w enable_cut_marks cols rows start_x start_y i0
              (Py.enumerate (Py.list_slice images i0 (i0 + cards_per_page)))
              l (Proc (log σ ++ [(INFO, MsgPage (current_page l))])
                      (written σ) (incomplete σ)))
    as (_ & _ & _ & He).
  apply elem_of_cons in Hi as [<-|Hi].
  - pose proof (place_cards_unwritable i _ j image_path Hin Hpil Hpng l
                  (Proc (log σ ++ [(INFO, MsgPage (current_page l))])
                        (written σ) (incomplete σ))) as Hbad.
    unfold batch in Hbad.
    destruct (place_cards' i l _ _) as [σ1 [l1|ex]]; simpl in *; congruence.
  - destruct (place_cards' i0 l _ _) as [σ1 [l1|ex]]; simpl in *.
    + by apply IH.
    + destruct (He ex eq_refl) as [->|[? _]]; done.
Qed.

End temporary_file.

(** [generate_pdf] on a non-empty list, up to the pages loop. *)
Lemma generate_pdf_nonempty w enable_cut_marks images output_path preview_only
    σ :
  images ≠ [] →
  generate_pdf w enable_cut_marks images output_path preview_only σ
  = match draw_pages w enable_cut_marks 3 3 9.5%float 15.5%float images 9
            preview_only
            (Locals (setSubject "Impression de cartes MTG"
                       (setAuthor "MTG PDF Generator"
                          (setTitle "Cartes Magic The Gathering"
                             (new_canvas output_path)))) 0 1)
            (page_starts (length images) 9)
            (Proc (log σ ++ [(INFO, MsgLayout 3 3)]) (written σ)
                  (incomplete σ)) with
    | (σ2, Ok l) =>
        (save w (c l);;
         logger INFO (MsgGenerated output_path);;
         logger INFO (MsgProcessed (processed_images l) (length images))) σ2
    | (σ2, Raise ex) => (σ2, Raise ex)
    end.
Proof.
  intros Hne. destruct images as [|image_path images]; [done|].
  unfold generate_pdf.
  unfold mbind at 1, M_bind at 1. rewrite calculate_layout_run. cbv beta iota.
  change (3 * 3) with 9.
  unfold mbind at 1, M_bind at 1, lift at 1. rewrite range_run by lia.
  unfold mbind at 1, M_bind at 1. reflexivity.
Qed.

(** X12. When an image loads but its temporary PNG cannot be written, the
    failure is not caught: outside preview mode [generate_pdf] raises
    [OSError], and no document is written. *)
Theorem unwritable_temporary_file_is_fatal (w : world)
    (enable_cut_marks : bool) (images : list Path) (output_path : string)
    (σ : proc) (n : nat) (image_path : Path) :
  images !! n = Some image_path →
  pil_ok w image_path = true →
  png_save_ok w (Z.of_nat n) = false →
  ∃ σ',
    generate_pdf w enable_cut_marks images output_path false σ
    = (σ', Raise OSError)
    ∧ written σ' = written σ.
Proof.
  intros Hn Hpil Hpng.
  assert (images ≠ []) as Hne by (by destruct images).
  rewrite generate_pdf_nonempty by done.
  match goal with
  | |- context [draw_pages ?w ?e ?c ?r ?x ?y ?im ?cp ?pv ?l ?st ?s] =>
      pose proof (draw_pages_unwritable w e c r x y ltac:(lia) im cp st
                    (Z.of_nat (9 * (n / 9))) (Z.of_nat (n mod 9))
                    image_path) as Hbad;
      destruct (draw_pages_frame w e c r x y im cp pv st l s) as (Hw & _);
      destruct (draw_pages w e c r x y im cp pv l st s) as [σ1 r1] eqn:Hdraw
  end.
  assert (r1 = Raise OSError) as ->.
  { change r1 with (σ1, r1).2. rewrite <- Hdraw. apply Hbad.
    - apply list_elem_of_lookup. exists (n / 9)%nat.
      apply page_starts_lookup.
      apply Nat.Div0.div_lt_upper_bound.
      pose proof (lookup_lt_Some _ _ _ Hn).
      pose proof (Nat.div_mod_eq (length images + 8) 9).
      pose proof (Nat.mod_upper_bound (length images + 8) 9). lia.
    - by apply batch_elem_of_image.
    - done.
    - replace (Z.of_nat (9 * (n / 9)) + Z.of_nat (n mod 9)) with (Z.of_nat n);
        [done|]. pose proof (Nat.div_mod_eq n 9). lia. }
  exists σ1. split; [done|]. exact Hw.
Qed.

Lemma unwritable_temporary_file_is_fatal_witness :
  ∃ σ',
    generate_pdf Cases.disk_full false Examples.ten_images "out.pdf" false
                 Examples.fresh
    = (σ', Raise OSError)
    ∧ written σ' = written Examples.fresh.
Proof.
  apply (unwritable_temporary_file_is_fatal Cases.disk_full false
           Examples.ten_images "out.pdf" Examples.fresh 3
           ["images"; "card_04.png"]%string);
    reflexivity.
Defined.

(** ** An image the canvas refuses *)

(** X13. When [drawImage] raises for an image that loaded, the error is logged
    as an insertion error, no card is drawn for that image on any page, and
    the run goes on to its normal end with every page in place. *)
Theorem rejected_image_is_skipped (w : world) (enable_cut_marks : bool)
    (images : list Path) (output_path : string) (σ : proc)
    (n : nat) (image_path : Path) :
  (∀ k, png_save_ok w k = true) →
  canvas_save_ok w = true →
  images !! n = Some image_path →
  pil_ok w image_path = true →
  draw_image_ok w (Z.of_nat n) = false →
  ∃ σ' doc,
    generate_pdf w enable_cut_marks images output_path false σ = (σ', Ok ())
    ∧ written σ' !! output_path = Some doc
    ∧ (ERROR, MsgInsertError image_path) ∈ log σ'
    ∧ (∀ pg img x y width height,
         pg ∈ pages doc →
         DrawImage (Z.of_nat n) img x y width height ∉ pg)
    ∧ length (pages doc) = ((length images + 8) / 9)%nat.
Proof.
  intros Hpng Hsave Hn Hpil Hdraw.
  assert (images ≠ []) as Hne by (by destruct images).
  destruct (generate_pdf_pages w enable_cut_marks images output_path σ)
    as (σ' & doc & Hrun & Hdoc & Hpages & Hlog); [done..|].
  assert (Z.of_nat (9 * (n / 9)) + Z.of_nat (n mod 9) = Z.of_nat n) as Hsplit.
  { pose proof (Nat.div_mod_eq n 9). lia. }
  exists σ', doc. split; [done|]. split; [done|].
  split; [|split].
  - rewrite Hlog. apply elem_of_app. right. apply elem_of_app. right.
    apply elem_of_app. left.
    apply (pages_log_elem w images 9 1 _ (Z.of_nat (9 * (n / 9)))
             (Z.of_nat (n mod 9), image_path)).
    + apply list_elem_of_lookup. exists (n / 9)%nat.
      apply page_starts_lookup. apply Nat.Div0.div_lt_upper_bound.
      pose proof (lookup_lt_Some _ _ _ Hn).
      pose proof (Nat.div_mod_eq (length images + 8) 9).
      pose proof (Nat.mod_upper_bound (length images + 8) 9). lia.
    + by apply batch_elem_of_image.
    + unfold card_log. rewrite Hpil, Hsplit, Hdraw. apply list_elem_of_here.
  - intros pg img x y width height Hpg Hdrawn.
    rewrite Hpages in Hpg. apply list_elem_of_lookup in Hpg as [p Hpg].
    apply page_lookup in Hpg as [_ ->].
    apply card_from_slot in Hdrawn as (j & other & Hslot & Hk & _ & Hok).
    unfold drawn in Hok. rewrite <- Hk, Hdraw in Hok.
    by destruct (pil_ok w other).
  - by rewrite Hpages, length_fmap, length_seq.
Qed.

Lemma rejected_image_is_skipped_witness :
  ∃ σ' doc,
    generate_pdf Cases.one_rejected false Examples.ten_images "out.pdf" false
                 Examples.fresh = (σ', Ok ())
    ∧ written σ' !! "out.pdf"%string = Some doc
    ∧ (ERROR, MsgInsertError ["images"; "card_04.png"]%string) ∈ log σ'
    ∧ (∀ pg img x y width height,
         pg ∈ pages doc →
         DrawImage (Z.of_nat 3) img x y width height ∉ pg)
    ∧ length (pages doc) = ((length Examples.ten_images + 8) / 9)%nat.
Proof.
  apply (rejected_image_is_skipped Cases.one_rejected false
           Examples.ten_images "out.pdf" Examples.fresh 3
           ["images"; "card_04.png"]%string);
    reflexivity.
Defined.

(** ** The cards of a document, taken together *)

Lemma enumerate_chunk {A} (l : list A) (p : nat) :
  take 9 (drop (9 * p) (Py.enumerate l))
  = (λ jp, (Z.of_nat (9 * p) + jp.1, jp.2))
      <$> Py.enumerate (take 9 (drop (9 * p) l)).
Proof.
  apply list_eq. intros j.
  rewrite list_lookup_fmap, enumerate_lookup, !lookup_take.
  case_decide; [|done].
  rewrite !lookup_drop, enumerate_lookup.
  destruct (l !! (9 * p + j)%nat); simpl; [|done]. do 2 f_equal. lia.
Qed.

Lemma omap_concat {A B} (f : A → option B) (ls : list (list A)) :
  omap f (concat ls) = concat ((λ l : list A, omap f l) <$> ls).
Proof.
  induction ls as [|l ls IH]; [done|]. simpl.
  rewrite omap_app. f_equal. exact IH.
Qed.

Lemma omap_fmap_compose {A B C} (f : A → B) (g : B → option C) (l : list A) :
  omap g (f <$> l) = omap (g ∘ f) l.
Proof.
  induction l as [|x l IH]; [done|]. simpl.
  destruct (g (f x)); [f_equal|]; exact IH.
Qed.

(** X14. Read page after page, the cards of the document are the images of
    the list that load and draw, in list order, each under its position in
    the list: nothing is drawn twice, reordered, or moved to another
    number by the failures before it. *)
Theorem cards_follow_the_list (w : world) (enable_cut_marks : bool)
    (images : list Path) (output_path : string) (σ : proc) :
  images ≠ [] →
  (∀ k, png_save_ok w k = true) →
  canvas_save_ok w = true →
  ∃ σ' doc,
    generate_pdf w enable_cut_marks images output_path false σ = (σ', Ok ())
    ∧ written σ' !! output_path = Some doc
    ∧ concat (cards <$> pages doc)
      = omap (λ kp, if drawn w kp.1 kp.2 then Some kp else None)
             (Py.enumerate images).
Proof.
  intros Hne Hpng Hsave.
  destruct (generate_pdf_pages w enable_cut_marks images output_path σ)
    as (σ' & doc & Hrun & Hdoc & Hpages & _); [done..|].
  exists σ', doc. split; [done|]. split; [done|].
  rewrite <- (chunks_concat ((length images + 8) / 9) (Py.enumerate images)).
  - rewrite omap_concat, Hpages, <- !list_fmap_compose. f_equal.
    apply list_fmap_ext. intros _ p _. unfold compose, page_ops. cbv beta.
    rewrite cards_page, batch_9, enumerate_chunk, omap_fmap_compose.
    apply list_omap_ext. apply Forall2_same_length_lookup_2; [done|].
    intros j [j1 x1] [j2 x2] H1 H2. simplify_eq. done.
  - unfold Py.enumerate. rewrite length_imap.
    pose proof (Nat.div_mod_eq (length images + 8) 9).
    pose proof (Nat.mod_upper_bound (length images + 8) 9). lia.
Qed.

Lemma cards_follow_the_list_witness :
  ∃ σ' doc,
    generate_pdf Examples.one_unreadable false Examples.ten_images "out.pdf"
                 false Examples.fresh = (σ', Ok ())
    ∧ written σ' !! "out.pdf"%string = Some doc
    ∧ concat (cards <$> pages doc)
      = omap (λ kp, if drawn Examples.one_unreadable kp.1 kp.2
                    then Some kp else None)
             (Py.enumerate Examples.ten_images).
Proof.
  apply (cards_follow_the_list Examples.one_unreadable false
           Examples.ten_images "out.pdf" Examples.fresh);
    [discriminate | reflexivity | reflexivity].
Defined.

(** ** Where cards can be *)

(** A card on the page comes from a drawn slot, and sits where that slot
    is. *)
Lemma card_from_slot_at w enable_cut_marks cols rows start_x start_y i
    (jps : list (Z * Path)) k img x y width height :
  DrawImage k img x y width height
  ∈ jps ≫= card_ops w enable_cut_marks cols rows start_x start_y i →
  ∃ j image_path,
    (j, image_path) ∈ jps ∧ k = i + j
    ∧ x = (slot_x start_x (j mod cols) * mm)%float
    ∧ y = (slot_y rows start_y (j / cols) * mm)%float
    ∧ width = (float_of_int CARD_WIDTH_MM * mm)%float
    ∧ height = (float_of_int CARD_HEIGHT_MM * mm)%float.
Proof.
  intros ([j image_path] & Hin & Hjp)%list_elem_of_bind.
  exists j, image_path. unfold card_ops in Hin.
  destruct (drawn w (i + j) image_path);
    [|by apply elem_of_nil in Hin].
  apply elem_of_cons in Hin as [Heq|Hin].
  - by simplify_eq.
  - destruct enable_cut_marks; [|by apply elem_of_nil in Hin].
    unfold mark_ops in Hin.
    repeat (apply elem_of_cons in Hin as [Heq|Hin]; [discriminate|]).
    by apply elem_of_nil in Hin.
Qed.

(** X15. Every card of a document sits on one of the nine slots of the grid,
    the slot of its number modulo 9, with the card's size; the slot lies
    inside the margins of the page; two cards of one page never share a
    slot; and neighbouring slots leave the spacing between them, so cards
    never overlap. *)
Theorem cards_stay_on_the_grid (w : world) (enable_cut_marks : bool)
    (images : list Path) (output_path : string) (σ : proc) :
  images ≠ [] →
  (∀ k, png_save_ok w k = true) →
  canvas_save_ok w = true →
  let x_of col :=
    (9.5 + float_of_int (col * (CARD_WIDTH_MM + CARD_SPACING_X)))%float in
  let y_of row :=
    (15.5 + float_of_int ((3 - 1 - row)
                          * (CARD_HEIGHT_MM + CARD_SPACING_Y)))%float in
  ∃ σ' doc,
    generate_pdf w enable_cut_marks images output_path false σ = (σ', Ok ())
    ∧ written σ' !! output_path = Some doc
    ∧ (∀ pg k img x y width height,
         pg ∈ pages doc →
         DrawImage k img x y width height ∈ pg →
         ∃ col row,
           0 ≤ col < 3 ∧ 0 ≤ row < 3 ∧ k mod 9 = 3 * row + col
           ∧ x = (x_of col * mm)%float ∧ y = (y_of row * mm)%float
           ∧ width = (float_of_int CARD_WIDTH_MM * mm)%float
           ∧ height = (float_of_int CARD_HEIGHT_MM * mm)%float
           ∧ (float_of_int MARGIN_LEFT <=? x_of col)%float = true
           ∧ (x_of col + float_of_int CARD_WIDTH_MM
              <=? page_width - float_of_int MARGIN_RIGHT)%float = true
           ∧ (float_of_int MARGIN_BOTTOM <=? y_of row)%float = true
           ∧ (y_of row + float_of_int CARD_HEIGHT_MM
              <=? page_height - float_of_int MARGIN_TOP)%float = true)
    ∧ (∀ pg k k' img img' x x' y y' width width' height height',
         pg ∈ pages doc →
         DrawImage k img x y width height ∈ pg →
         DrawImage k' img' x' y' width' height' ∈ pg →
         k ≠ k' → k mod 9 ≠ k' mod 9)
    ∧ (∀ col col', 0 ≤ col → col < col' → col' < 3 →
         (x_of col + float_of_int CARD_WIDTH_MM
          + float_of_int CARD_SPACING_X <=? x_of col')%float = true)
    ∧ (∀ row row', 0 ≤ row → row < row' → row' < 3 →
         (y_of row' + float_of_int CARD_HEIGHT_MM
          + float_of_int CARD_SPACING_Y <=? y_of row)%float = true).
Proof.
  intros Hne Hpng Hsave x_of y_of.
  destruct (generate_pdf_pages w enable_cut_marks images output_path σ)
    as (σ' & doc & Hrun & Hdoc & Hpages & _); [done..|].
  exists σ', doc. split; [done|]. split; [done|].
  assert (∀ pg k img x y width height,
            pg ∈ pages doc →
            DrawImage k img x y width height ∈ pg →
            ∃ (p : nat) j,
              0 ≤ j < 9 ∧ k = Z.of_nat (9 * p) + j
              ∧ x = (slot_x 9.5 (j mod 3) * mm)%float
              ∧ y = (slot_y 3 15.5 (j / 3) * mm)%float
              ∧ width = (float_of_int CARD_WIDTH_MM * mm)%float
              ∧ height = (float_of_int CARD_HEIGHT_MM * mm)%float
              ∧ pg = page_ops w enable_cut_marks 3 3 9.5%float 15.5%float
                              images 9 (Z.of_nat (9 * p))) as Hslot.
  { intros pg k img x y width height Hpg Hcard.
    rewrite Hpages in Hpg. apply list_elem_of_lookup in Hpg as [p Hpg].
    apply page_lookup in Hpg as [_ ->].
    apply card_from_slot_at in Hcard
      as (j & image_path & Hin & -> & -> & -> & -> & ->).
    apply image_of_batch_elem in Hin as [Hj _].
    by exists p, j. }
  split; [|split; [|split]].
  - intros pg k img x y width height Hpg Hcard.
    destruct (Hslot _ _ _ _ _ _ _ Hpg Hcard)
      as (p & j & Hj & -> & -> & -> & -> & -> & _).
    exists (j mod 3), (j / 3).
    assert (0 ≤ j mod 3 < 3) as Hcol by (apply Z.mod_pos_bound; lia).
    assert (0 ≤ j / 3 < 3) as Hrow.
    { split; [apply Z.div_pos; lia|]. apply Z.div_lt_upper_bound; lia. }
    split; [done|]. split; [done|]. split.
    { replace (Z.of_nat (9 * p) + j) with (j + Z.of_nat p * 9) by lia.
      rewrite Z.mod_add by lia. rewrite Z.mod_small by lia.
      pose proof (Z.div_mod j 3 ltac:(lia)). lia. }
    split; [done|]. split; [done|]. split; [done|]. split; [done|].
    set (col := j mod 3) in *. set (row := j / 3) in *. clearbody col row.
    assert (col = 0 ∨ col = 1 ∨ col = 2) as [-> | [-> | ->]] by lia;
      (assert (row = 0 ∨ row = 1 ∨ row = 2) as [-> | [-> | ->]] by lia);
      repeat split; reflexivity.
  - intros pg k k' img img' x x' y y' width width' height height'
      Hpg Hcard Hcard' Hkk'.
    destruct (Hslot _ _ _ _ _ _ _ Hpg Hcard) as (p & j & Hj & -> & _).
    rewrite Hpages in Hpg. apply list_elem_of_lookup in Hpg as [p' Hpg].
    apply page_lookup in Hpg as [_ ->].
    apply card_from_slot_at in Hcard, Hcard'.
    destruct Hcard as (j1 & p1 & Hin1 & Hk1 & _).
    destruct Hcard' as (j2 & p2 & Hin2 & -> & _).
    apply image_of_batch_elem in Hin1 as [Hj1 _].
    apply image_of_batch_elem in Hin2 as [Hj2 _].
    rewrite Hk1.
    replace (Z.of_nat (9 * p') + j1) with (j1 + Z.of_nat p' * 9) by lia.
    replace (Z.of_nat (9 * p') + j2) with (j2 + Z.of_nat p' * 9) by lia.
    rewrite !Z.mod_add, !Z.mod_small by lia. lia.
  - intros col col' H0 Hlt H3.
    assert (col = 0 ∧ col' = 1 ∨ col = 0 ∧ col' = 2 ∨ col = 1 ∧ col' = 2)
      as [[-> ->]|[[-> ->]|[-> ->]]] by lia; reflexivity.
  - intros row row' H0 Hlt H3.
    assert (row = 0 ∧ row' = 1 ∨ row = 0 ∧ row' = 2 ∨ row = 1 ∧ row' = 2)
      as [[-> ->]|[[-> ->]|[-> ->]]] by lia; reflexivity.
Qed.

Lemma cards_stay_on_the_grid_witness :
  let x_of col :=
    (9.5 + float_of_int (col * (CARD_WIDTH_MM + CARD_SPACING_X)))%float in
  let y_of row :=
    (15.5 + float_of_int ((3 - 1 - row)
                          * (CARD_HEIGHT_MM + CARD_SPACING_Y)))%float in
  ∃ σ' doc,
    generate_pdf Examples.friendly true Examples.ten_images "out.pdf" false
                 Examples.fresh = (σ', Ok ())
    ∧ written σ' !! "out.pdf"%string = Some doc
    ∧ (∀ pg k img x y width height,
         pg ∈ pages doc →
         DrawImage k img x y width height ∈ pg →
         ∃ col row,
           0 ≤ col < 3 ∧ 0 ≤ row < 3 ∧ k mod 9 = 3 * row + col
           ∧ x = (x_of col * mm)%float ∧ y = (y_of row * mm)%float
           ∧ width = (float_of_int CARD_WIDTH_MM * mm)%float
           ∧ height = (float_of_int CARD_HEIGHT_MM * mm)%float
           ∧ (float_of_int MARGIN_LEFT <=? x_of col)%float = true
           ∧ (x_of col + float_of_int CARD_WIDTH_MM
              <=? page_width - float_of_int MARGIN_RIGHT)%float = true
           ∧ (float_of_int MARGIN_BOTTOM <=? y_of row)%float = true
           ∧ (y_of row + float_of_int CARD_HEIGHT_MM
              <=? page_height - float_of_int MARGIN_TOP)%float = true)
    ∧ (∀ pg k k' img img' x x' y y' width width' height height',
         pg ∈ pages doc →
         DrawImage k img x y width height ∈ pg →
         DrawImage k' img' x' y' width' height' ∈ pg →
         k ≠ k' → k mod 9 ≠ k' mod 9)
    ∧ (∀ col col', 0 ≤ col → col < col' → col' < 3 →
         (x_of col + float_of_int CARD_WIDTH_MM
          + float_of_int CARD_SPACING_X <=? x_of col')%float = true)
    ∧ (∀ row row', 0 ≤ row → row < row' → row' < 3 →
         (y_of row' + float_of_int CARD_HEIGHT_MM
          + float_of_int CARD_SPACING_Y <=? y_of row)%float = true).
Proof.
  apply (cards_stay_on_the_grid Examples.friendly true Examples.ten_images
           "out.pdf" Examples.fresh);
    [discriminate | reflexivity | reflexivity].
Defined.

End GenerateMtgPdfMore.
